(** * gradio_component_videoslider: the slider and the video synchronisation

    A shallow embedding of the TypeScript of
    - [frontend/shared/Slider.svelte]            (module [Slider]),
    - [frontend/shared/VideoSliderPreview.svelte] (module [Preview]),
    - [frontend/shared/Player.svelte]            (module [Player], [play_pause] only),
    - [frontend/Index.svelte]                    (module [Index]),
    and the properties of the specification that are about them; then the
    reactive statements of the slider ([SliderReactive]), the timeline of the
    player ([Timeline]: [handleMove], [handle_click], the defaults of [time]
    and [duration]) and the change notification of the root component
    ([Change]), with the properties the code itself shows.

    Numbers.  A JavaScript [number] is modelled by [JS.number]: an exact
    rational, or one of [Infinity], [-Infinity], [NaN].  The arithmetic
    follows ECMAScript on these four kinds of value (division by zero,
    [NaN] propagation, [Math.max]/[Math.min] on [NaN], ...).  Two things of
    IEEE 754 are left out there: the rounding error of a single operation
    (every operation on finite values is exact) and the sign of zero (there
    is one zero, which behaves as [+0]).

    The two threshold tests of the code, [Math.abs(a - b) > 3] in
    [drag_move] and [Math.abs(a - b) > 0.1] in the reactive block of the
    preview, are decided by a rounded subtraction, so they are computed in
    binary64 ([Double], on the IEEE 754 operations of the standard library's
    [SpecFloat]): a number the program holds is a double, a rational that is
    not one is read as the nearest double, as a decimal literal is. *)

From Stdlib Require Import QArith Qabs Qround Qminmax ZArith List Bool Lia Lqa.
From Stdlib Require String.
From Stdlib Require SpecFloat.
Import ListNotations.

Open Scope Q_scope.

(* ================================================================== *)
(** ** JavaScript numbers *)
(* ================================================================== *)

Module JS.

Inductive number : Type :=
| Fin (q : Q)
| PosInf
| NegInf
| NaN.

(** The infinity (or [NaN]) whose sign is the result of a comparison with 0. *)
Definition signed_inf (c : comparison) : number :=
  match c with
  | Gt => PosInf
  | Lt => NegInf
  | Eq => NaN
  end.

(** Unary [-a]. *)
Definition neg (a : number) : number :=
  match a with
  | Fin q => Fin (- q)
  | PosInf => NegInf
  | NegInf => PosInf
  | NaN => NaN
  end.

(** [a + b]. *)
Definition add (a b : number) : number :=
  match a, b with
  | NaN, _ | _, NaN => NaN
  | Fin p, Fin q => Fin (p + q)
  | PosInf, NegInf | NegInf, PosInf => NaN
  | PosInf, _ | _, PosInf => PosInf
  | NegInf, _ | _, NegInf => NegInf
  end.

(** [a - b]. *)
Definition sub (a b : number) : number := add a (neg b).

(** [a * b]. *)
Definition mul (a b : number) : number :=
  match a, b with
  | NaN, _ | _, NaN => NaN
  | Fin p, Fin q => Fin (p * q)
  | Fin p, PosInf | PosInf, Fin p => signed_inf (p ?= 0)
  | Fin p, NegInf | NegInf, Fin p => signed_inf (0 ?= p)
  | PosInf, PosInf | NegInf, NegInf => PosInf
  | PosInf, NegInf | NegInf, PosInf => NegInf
  end.

(** [a / b]: a finite value over zero is an infinity of its sign,
    [0 / 0] is [NaN]. *)
Definition div (a b : number) : number :=
  match a, b with
  | NaN, _ | _, NaN => NaN
  | Fin p, Fin q =>
      if Qeq_bool q 0 then signed_inf (p ?= 0) else Fin (p / q)
  | Fin _, PosInf | Fin _, NegInf => Fin 0
  | PosInf, Fin q => if Qle_bool 0 q then PosInf else NegInf
  | NegInf, Fin q => if Qle_bool 0 q then NegInf else PosInf
  | _, _ => NaN
  end.

(** [a > b]; false as soon as one side is [NaN]. *)
Definition gt (a b : number) : bool :=
  match a, b with
  | NaN, _ | _, NaN => false
  | Fin p, Fin q => negb (Qle_bool p q)
  | PosInf, PosInf | NegInf, _ | _, PosInf => false
  | PosInf, _ | _, NegInf => true
  end.

(** [a === b] on numbers; [NaN] is equal to nothing. *)
Definition strict_eq (a b : number) : bool :=
  match a, b with
  | Fin p, Fin q => Qeq_bool p q
  | PosInf, PosInf | NegInf, NegInf => true
  | _, _ => false
  end.

(** Truthiness of a number: [0] and [NaN] are falsy. *)
Definition truthy (a : number) : bool :=
  match a with
  | Fin q => negb (Qeq_bool q 0)
  | NaN => false
  | _ => true
  end.

(** [a || b] where [a] may be [undefined] (from an optional chain). *)
Definition or_else (a : option number) (b : number) : number :=
  match a with
  | Some v => if truthy v then v else b
  | None => b
  end.

(** [Math.max(a, b)]. *)
Definition Math_max (a b : number) : number :=
  match a, b with
  | NaN, _ | _, NaN => NaN
  | _, _ => if gt a b then a else b
  end.

(** [Math.min(a, b)]. *)
Definition Math_min (a b : number) : number :=
  match a, b with
  | NaN, _ | _, NaN => NaN
  | _, _ => if gt a b then b else a
  end.

(** [Math.abs(a)]. *)
Definition Math_abs (a : number) : number :=
  match a with
  | Fin q => Fin (Qabs q)
  | PosInf | NegInf => PosInf
  | NaN => NaN
  end.

(** [Math.round(a)]: the nearest integer, a tie going up. *)
Definition Math_round (a : number) : number :=
  match a with
  | Fin q => Fin (inject_Z (Qfloor (q + (1 # 2))))
  | _ => a
  end.

(** [Math.pow(b, n)] for a natural exponent. *)
Fixpoint Math_pow (b : number) (n : nat) : number :=
  match n with
  | O => Fin 1
  | S k => mul b (Math_pow b k)
  end.

(** [Number.EPSILON], 2^-52. *)
Definition EPSILON : number := Fin (1 # 4503599627370496).

(** A finite value in the closed interval [lo, hi]. *)
Definition within (lo hi : Q) (a : number) : Prop :=
  match a with
  | Fin q => lo <= q <= hi
  | _ => False
  end.

(** Finite. *)
Definition finite (a : number) : Prop :=
  match a with
  | Fin _ => True
  | _ => False
  end.

(** The same numeric value (rationals up to [==]). *)
Definition same (a b : number) : Prop :=
  match a, b with
  | Fin p, Fin q => p == q
  | PosInf, PosInf | NegInf, NegInf | NaN, NaN => True
  | _, _ => False
  end.

End JS.

Import JS.
Coercion Fin : Q >-> number.

(* ================================================================== *)
(** ** Binary64 *)
(* ================================================================== *)

Module Double.

Definition prec : Z := 53.
Definition emax : Z := 1024.

(** The double a number denotes: the rational itself when it is a double,
    the nearest double (ties to even) otherwise, an infinity beyond the
    largest double.  The quotient of numerator and denominator is rounded
    once, by the division of [SpecFloat]. *)
Definition of_number (a : number) : SpecFloat.spec_float :=
  match a with
  | Fin q =>
      match Qnum q with
      | Z0 => SpecFloat.S754_zero false
      | Zpos n =>
          SpecFloat.SFdiv prec emax (SpecFloat.S754_finite false n 0)
            (SpecFloat.S754_finite false (Qden q) 0)
      | Zneg n =>
          SpecFloat.SFdiv prec emax (SpecFloat.S754_finite true n 0)
            (SpecFloat.S754_finite false (Qden q) 0)
      end
  | PosInf => SpecFloat.S754_infinity false
  | NegInf => SpecFloat.S754_infinity true
  | NaN => SpecFloat.S754_nan
  end.

(** [Math.abs(a - b) > c] on doubles: the subtraction is rounded to the
    nearest double, the comparison is false on [NaN]. *)
Definition abs_sub_gt (a b c : number) : bool :=
  SpecFloat.SFltb (of_number c)
    (SpecFloat.SFabs
       (SpecFloat.SFsub prec emax (of_number a) (of_number b))).

End Double.

(* ================================================================== *)
(** ** Slider.svelte *)
(* ================================================================== *)

Module Slider.

(** [image_size]: the content area in pixels. *)
Record Rect : Type := {
  top : number;
  left : number;
  width : number;
  height : number
}.

(** A d3-drag event: the pointer's [x] and the DOM event it comes from
    (an opaque identifier). *)
Record DragEvent : Type := {
  x : number;
  sourceEvent : nat
}.

(** What the component makes observable to its parent: a new value of the
    two-way bound [position], and [dispatch("click", e)]. *)
Inductive Emit : Type :=
| EmitPosition (p : number)
| EmitClick (e : nat).

(** The component's props and internal state.  A bound element ([el],
    [parent_el]) is represented by the width its [getBoundingClientRect()]
    reports, [None] while it is [undefined]. *)
Record State : Type := {
  position : number;
  disabled : bool;
  image_size : Rect;
  el : option number;
  parent_el : option number;
  px : number;
  active : bool;
  container_width : number;
  drag_start_x : number;
  was_dragged : bool;
  emitted : list Emit
}.

(** Whether an assignment changes the value of a variable that holds a
    number.  The compiled component makes this test on every assignment (the
    framework's [safe_not_equal], for which [NaN] equals [NaN]); only a
    changed value is passed to the parent's binding and makes the reactive
    statements that read the variable run again. *)
Definition changed (old new : number) : bool :=
  match old, new with
  | NaN, NaN => false
  | _, _ => negb (strict_eq old new)
  end.

(** [position = v]. *)
Definition with_position (v : number) (s : State) : State :=
  {| position := v; disabled := disabled s; image_size := image_size s;
     el := el s; parent_el := parent_el s; px := px s; active := active s;
     container_width := container_width s; drag_start_x := drag_start_x s;
     was_dragged := was_dragged s;
     emitted := emitted s
                ++ (if changed (position s) v then [EmitPosition v] else []) |}.

Definition with_image_width (v : number) (s : State) : State :=
  {| position := position s; disabled := disabled s;
     image_size := {| top := top (image_size s); left := left (image_size s);
                      width := v; height := height (image_size s) |};
     el := el s; parent_el := parent_el s; px := px s; active := active s;
     container_width := container_width s; drag_start_x := drag_start_x s;
     was_dragged := was_dragged s; emitted := emitted s |}.

Definition with_px (v : number) (s : State) : State :=
  {| position := position s; disabled := disabled s; image_size := image_size s;
     el := el s; parent_el := parent_el s; px := v; active := active s;
     container_width := container_width s; drag_start_x := drag_start_x s;
     was_dragged := was_dragged s; emitted := emitted s |}.

Definition with_active (v : bool) (s : State) : State :=
  {| position := position s; disabled := disabled s; image_size := image_size s;
     el := el s; parent_el := parent_el s; px := px s; active := v;
     container_width := container_width s; drag_start_x := drag_start_x s;
     was_dragged := was_dragged s; emitted := emitted s |}.

Definition with_container_width (v : number) (s : State) : State :=
  {| position := position s; disabled := disabled s; image_size := image_size s;
     el := el s; parent_el := parent_el s; px := px s; active := active s;
     container_width := v; drag_start_x := drag_start_x s;
     was_dragged := was_dragged s; emitted := emitted s |}.

Definition with_drag_start_x (v : number) (s : State) : State :=
  {| position := position s; disabled := disabled s; image_size := image_size s;
     el := el s; parent_el := parent_el s; px := px s; active := active s;
     container_width := container_width s; drag_start_x := v;
     was_dragged := was_dragged s; emitted := emitted s |}.

Definition with_was_dragged (v : bool) (s : State) : State :=
  {| position := position s; disabled := disabled s; image_size := image_size s;
     el := el s; parent_el := parent_el s; px := px s; active := active s;
     container_width := container_width s; drag_start_x := drag_start_x s;
     was_dragged := v; emitted := emitted s |}.

(** [dispatch("click", e)]. *)
Definition dispatch_click (e : nat) (s : State) : State :=
  {| position := position s; disabled := disabled s; image_size := image_size s;
     el := el s; parent_el := parent_el s; px := px s; active := active s;
     container_width := container_width s; drag_start_x := drag_start_x s;
     was_dragged := was_dragged s; emitted := emitted s ++ [EmitClick e] |}.

(** [clamp(value, min, max)]. *)
Definition clamp (value min max : number) : number :=
  Math_min (Math_max value min) max.

(** [set_position(width)]. *)
Definition set_position (w : number) (s : State) : State :=
  let s1 := with_container_width (or_else (parent_el s) 0) s in
  let s2 := if strict_eq w 0
            then with_image_width (or_else (el s1) 0) s1
            else s1 in
  with_px (clamp (add (mul (width (image_size s2)) (position s2))
                      (left (image_size s2)))
                 0 (container_width s2)) s2.

(** [round(n, points)]. *)
Definition round (n : number) (points : nat) : number :=
  let mod_ := Math_pow 10 points in
  div (Math_round (mul (add n EPSILON) mod_)) mod_.

(** [update_position(x)]. *)
Definition update_position (cx : number) (s : State) : State :=
  let s1 := with_px (clamp cx 0 (container_width s)) s in
  with_position
    (round (div (sub cx (left (image_size s1))) (width (image_size s1))) 5) s1.

(** [drag_start(event)]. *)
Definition drag_start (event : DragEvent) (s : State) : State :=
  if disabled s then s
  else
    let s1 := with_active true s in
    let s2 := update_position (x event) s1 in
    let s3 := with_drag_start_x (x event) s2 in
    with_was_dragged false s3.

(** [drag_move(event)]. *)
Definition drag_move (event : DragEvent) (s : State) : State :=
  if disabled s then s
  else
    let s1 := update_position (x event) s in
    if Double.abs_sub_gt (x event) (drag_start_x s1) 3
    then with_was_dragged true s1
    else s1.

(** [drag_end(event)]. *)
Definition drag_end (event : DragEvent) (s : State) : State :=
  if disabled s then s
  else
    let s1 := with_active false s in
    if negb (was_dragged s1)
    then dispatch_click (sourceEvent event) s1
    else s1.

(** [update_position_from_pc(pc)]. *)
Definition update_position_from_pc (pc : number) (s : State) : State :=
  with_px (clamp (add (mul (width (image_size s)) pc) (left (image_size s)))
                 0 (container_width s)) s.

(** The browser lays the bound elements out again: they report new widths. *)
Definition layout (e pe : option number) (s : State) : State :=
  {| position := position s; disabled := disabled s; image_size := image_size s;
     el := e; parent_el := pe; px := px s; active := active s;
     container_width := container_width s; drag_start_x := drag_start_x s;
     was_dragged := was_dragged s; emitted := emitted s |}.

(** [on:resize={() => set_position(image_size.width)}], also the first
    statement of [onMount]. *)
Definition on_resize (s : State) : State :=
  set_position (width (image_size s)) s.

(** The three d3-drag notifications the handlers are registered for. *)
Inductive Pointer : Type :=
| Down (e : DragEvent)
| Move (e : DragEvent)
| Up (e : DragEvent).

Definition handle (p : Pointer) (s : State) : State :=
  match p with
  | Down e => drag_start e s
  | Move e => drag_move e s
  | Up e => drag_end e s
  end.

(** [$: update_position_from_pc(position);] as the framework runs it once a
    handler has returned: only if the handler, started in [before], has
    changed [position]. *)
Definition reactive (before after : State) : State :=
  if changed (position before) (position after)
  then update_position_from_pc (position after) after
  else after.

(** The handlers run in the order the events are delivered, each followed by
    the reactive statement. *)
Definition run (ps : list Pointer) (s : State) : State :=
  fold_left (fun st p => reactive st (handle p st)) ps s.

(** The state of a freshly created component with the given props. *)
Definition init (pos : number) (dis : bool) (size : Rect)
    (e pe : option number) : State :=
  {| position := pos; disabled := dis; image_size := size;
     el := e; parent_el := pe; px := 0; active := false;
     container_width := 0; drag_start_x := NaN; was_dragged := false;
     emitted := [] |}.

End Slider.

(* ================================================================== *)
(** ** The media elements *)
(* ================================================================== *)

(** An [HTMLVideoElement], as far as the components use it.  The element
    belongs to the browser: what is modelled is the part of its contract the
    code relies on.  [currentTime] is always finite.  [play()] returns a
    promise; when the runtime lets the element play, [paused] becomes false
    and the promise resolves, otherwise the promise rejects and nothing
    changes.  [pause()] sets [paused].  Each element keeps the list of the
    transport calls it received ([calls]) and of the values assigned to its
    [currentTime] ([seeks]). *)
Module Media.

Inductive Call : Type := Play | Pause.

Inductive Promise : Type := Resolved | Rejected.

Record Video : Type := {
  currentTime : Q;
  paused : bool;
  ended : bool;
  readyState : nat;
  may_play : bool;
  calls : list Call;
  seeks : list Q
}.

(** [HTMLMediaElement.HAVE_CURRENT_DATA]. *)
Definition HAVE_CURRENT_DATA : nat := 2.

Definition received (c : Call) (paused' : bool) (v : Video) : Video :=
  {| currentTime := currentTime v; paused := paused'; ended := ended v;
     readyState := readyState v; may_play := may_play v;
     calls := calls v ++ [c]; seeks := seeks v |}.

(** [v.play()]. *)
Definition play (v : Video) : Video * Promise :=
  if may_play v
  then (received Play false v, Resolved)
  else (received Play (paused v) v, Rejected).

(** [promise.catch(() => {})]: a rejection is dropped. *)
Definition catch_ignore (r : Video * Promise) : Video := fst r.

(** [v.pause()]. *)
Definition pause (v : Video) : Video := received Pause true v.

(** [v.currentTime = t]. *)
Definition set_currentTime (t : Q) (v : Video) : Video :=
  {| currentTime := t; paused := paused v; ended := ended v;
     readyState := readyState v; may_play := may_play v;
     calls := calls v; seeks := seeks v ++ [t] |}.

(** How many times [c] was called on [v]. *)
Definition count (c : Call) (v : Video) : nat :=
  length (filter (fun d => match c, d with
                           | Play, Play | Pause, Pause => true
                           | _, _ => false
                           end) (calls v)).

End Media.

(* ================================================================== *)
(** ** Player.svelte *)
(* ================================================================== *)

Module Player.
Import Media.

(** The [isPlaying] test of [play_pause]. *)
Definition isPlaying (video : Video) : bool :=
  gt (currentTime video) 0
  && negb (paused video)
  && negb (ended video)
  && (HAVE_CURRENT_DATA <? readyState video)%nat.

(** [play_pause()]; [is_fullscreen] is [document.fullscreenElement == video].
    The promise of [play()] is awaited, so its rejection is the result. *)
Definition play_pause (is_fullscreen : bool) (video : Video) : Video * Promise :=
  if negb is_fullscreen
  then if negb (isPlaying video) then play video else (pause video, Resolved)
  else (video, Resolved).

End Player.

(* ================================================================== *)
(** ** VideoSliderPreview.svelte *)
(* ================================================================== *)

Module Preview.
Import Media.

(** The props and the state the script reads and writes. *)
Record State : Type := {
  position : number;
  autoplay : bool;
  video1_el : option Video;
  video2_el : option Video;
  video_is_ready : bool;
  initial_autoplay_done : bool
}.

Definition with_video1 (v : Video) (s : State) : State :=
  {| position := position s; autoplay := autoplay s; video1_el := Some v;
     video2_el := video2_el s; video_is_ready := video_is_ready s;
     initial_autoplay_done := initial_autoplay_done s |}.

Definition with_video2 (v : Video) (s : State) : State :=
  {| position := position s; autoplay := autoplay s; video1_el := video1_el s;
     video2_el := Some v; video_is_ready := video_is_ready s;
     initial_autoplay_done := initial_autoplay_done s |}.

Definition with_video_is_ready (b : bool) (s : State) : State :=
  {| position := position s; autoplay := autoplay s; video1_el := video1_el s;
     video2_el := video2_el s; video_is_ready := b;
     initial_autoplay_done := initial_autoplay_done s |}.

Definition with_initial_autoplay_done (b : bool) (s : State) : State :=
  {| position := position s; autoplay := autoplay s; video1_el := video1_el s;
     video2_el := video2_el s; video_is_ready := video_is_ready s;
     initial_autoplay_done := b |}.

(** [handle_video_ready()]. *)
Definition handle_video_ready (s : State) : State :=
  with_video_is_ready true s.

(** [toggle_playback()]. *)
Definition toggle_playback (s : State) : State :=
  match video1_el s, video2_el s with
  | Some v1, Some v2 =>
      let is_paused := paused v1 in
      if is_paused
      then with_video2 (catch_ignore (play v2))
             (with_video1 (catch_ignore (play v1)) s)
      else with_video2 (pause v2) (with_video1 (pause v1) s)
  | _, _ => s
  end.

(** The first [if] of the reactive block: the initial autoplay. *)
Definition autoplay_block (s : State) : State :=
  match video1_el s with
  | Some v1 =>
      if video_is_ready s && autoplay s && negb (initial_autoplay_done s)
      then with_initial_autoplay_done true
             (with_video1 (catch_ignore (play v1)) s)
      else s
  | None => s
  end.

(** The second [if] of the reactive block: the slave follows the master. *)
Definition sync_block (s : State) : State :=
  match video1_el s, video2_el s with
  | Some v1, Some v2 =>
      let v2a :=
        if Double.abs_sub_gt (currentTime v1) (currentTime v2) (1 # 10)
        then set_currentTime (currentTime v1) v2
        else v2 in
      let v2b :=
        if negb (Bool.eqb (paused v1) (paused v2a))
        then if paused v1 then pause v2a else catch_ignore (play v2a)
        else v2a in
      with_video2 v2b s
  | _, _ => s
  end.

(** The reactive block [$: { ... }]. *)
Definition reactive_block (s : State) : State :=
  sync_block (autoplay_block s).

(** What makes the block run: the master's [loadeddata], a render pass, or
    an element reporting a new transport state (time passing, the end of
    the stream, buffering, the runtime's policy). *)
Inductive Which : Type := Master | Slave.

Inductive Event : Type :=
| Ready
| Tick
| Changed (w : Which) (t : Q) (is_paused is_ended : bool) (ready : nat)
          (allowed : bool).

Definition report (t : Q) (p e : bool) (r : nat) (a : bool) (v : Video) : Video :=
  {| currentTime := t; paused := p; ended := e; readyState := r;
     may_play := a; calls := calls v; seeks := seeks v |}.

Definition changed (w : Which) (t : Q) (p e : bool) (r : nat) (a : bool)
    (s : State) : State :=
  match w with
  | Master =>
      match video1_el s with
      | Some v => with_video1 (report t p e r a v) s
      | None => s
      end
  | Slave =>
      match video2_el s with
      | Some v => with_video2 (report t p e r a v) s
      | None => s
      end
  end.

Definition step (ev : Event) (s : State) : State :=
  match ev with
  | Ready => reactive_block (handle_video_ready s)
  | Tick => reactive_block s
  | Changed w t p e r a => reactive_block (changed w t p e r a s)
  end.

Definition run (evs : list Event) (s : State) : State :=
  fold_left (fun st ev => step ev st) evs s.

(** The number of [play()] calls the master received. *)
Definition master_plays (s : State) : nat :=
  match video1_el s with
  | Some v => count Play v
  | None => O
  end.

End Preview.

(* ================================================================== *)
(** ** Index.svelte *)
(* ================================================================== *)

Module Index.

(** [$: normalised_slider_position = Math.max(0, Math.min(100, position)) / 100]. *)
Definition normalised_slider_position (position : number) : number :=
  div (Math_max 0 (Math_min 100 position)) 100.

End Index.

(* ================================================================== *)
(** ** Scenarios and vocabulary of the statements *)
(* ================================================================== *)

Module SliderCases.
Import Slider.

(** [round(z, 5)] on a finite value, written out. *)
Definition round5 (z : Q) : Q :=
  inject_Z (Qfloor ((z + (1 # 4503599627370496)) * 100000 + (1 # 2))) / 100000.

(** The scenario of the specification: content area
    [{top: 0, left: 100, width: 400, height: 200}] in a container 600 pixels
    wide, after mount. *)
Definition scenario : State :=
  on_resize (init (1 # 2) false
               {| top := 0; left := 100; width := 400; height := 200 |}
               (Some (Fin 400)) (Some (Fin 600))).

(** The slider as [VideoSliderPreview] creates it, after mount: no
    [image_size] prop, so the content area is [{0, 0, 0, 0}] until
    [set_position] measures the content element; content and container are
    600 pixels wide. *)
Definition in_preview : State :=
  on_resize (init (1 # 2) false
               {| top := 0; left := 0; width := 0; height := 0 |}
               (Some (Fin 600)) (Some (Fin 600))).

(** A component mounted before its content is laid out: the content width is
    still 0. *)
Definition unlaid : State :=
  on_resize (init (1 # 2) false
               {| top := 0; left := 0; width := 0; height := 0 |}
               (Some (Fin 0)) (Some (Fin 600))).

(** The displacement test of [drag_move]. *)
Definition beyond_threshold (start : number) (e : DragEvent) : bool :=
  Double.abs_sub_gt (x e) start 3.

(** What an assignment of [new] to [position], holding [old], lets the parent
    see. *)
Definition notify (old new : number) : list Emit :=
  if changed old new then [EmitPosition new] else [].

(** What the assignments of [ps], one after the other, let the parent see. *)
Fixpoint notifications (old : number) (ps : list number) : list Emit :=
  match ps with
  | [] => []
  | p :: r => notify old p ++ notifications p r
  end.





End SliderCases.

Module PreviewCases.
Import Media Preview.

(** The slave element after the synchronising part has run against the
    master [v1]: the value [sync_block] stores, named for the proofs. *)
Definition slave_after (v1 v2 : Video) : Video :=
  let v2a :=
    if Double.abs_sub_gt (currentTime v1) (currentTime v2) (1 # 10)
    then set_currentTime (currentTime v1) v2
    else v2 in
  if negb (Bool.eqb (paused v1) (paused v2a))
  then if paused v1 then pause v2a else catch_ignore (play v2a)
  else v2a.



(** An element at time [t] with the given [paused] flag and permission to
    play, with enough data buffered, that has received no call yet. *)
Definition clip (t : Q) (is_paused allowed : bool) : Video :=
  {| currentTime := t; paused := is_paused; ended := false; readyState := 4;
     may_play := allowed; calls := []; seeks := [] |}.

(** A preview with both elements bound, not yet ready. *)
Definition both (a : bool) (v1 v2 : Video) : State :=
  {| position := 1 # 2; autoplay := a; video1_el := Some v1;
     video2_el := Some v2; video_is_ready := false;
     initial_autoplay_done := false |}.

(** A master that is not paused and not ended, has played for 5 seconds, but
    has no data beyond the current frame: [readyState] is
    [HAVE_CURRENT_DATA]. *)
Definition stalled : Video :=
  {| currentTime := 5; paused := false; ended := false;
     readyState := HAVE_CURRENT_DATA; may_play := true;
     calls := []; seeks := [] |}.

(** Whether the autoplay guard of the reactive block holds. *)
Definition fires (s : State) : bool :=
  match video1_el s with
  | Some _ => video_is_ready s && autoplay s && negb (initial_autoplay_done s)
  | None => false
  end.

(** Whether an element is bound. *)
Definition present (o : option Video) : bool :=
  match o with
  | Some _ => true
  | None => false
  end.

End PreviewCases.

(* ================================================================== *)
(** ** Slider.svelte: the reactive statements *)
(* ================================================================== *)

Module SliderReactive.
Import Slider.

(** [$: set_position(image_size.width);] *)
Definition reactive_set_position (s : State) : State :=
  set_position (width (image_size s)) s.


(** The coordinate a pointer notification carries. *)
Definition pointer_x (p : Pointer) : number :=
  match p with
  | Down e | Move e | Up e => x e
  end.

(** The position notifications in a list of emissions. *)
Fixpoint positions (l : list Emit) : list number :=
  match l with
  | [] => []
  | EmitPosition p :: r => p :: positions r
  | EmitClick _ :: r => positions r
  end.

(** The click notifications in a list of emissions. *)
Fixpoint clicks (l : list Emit) : list nat :=
  match l with
  | [] => []
  | EmitPosition _ :: r => clicks r
  | EmitClick e :: r => e :: clicks r
  end.

End SliderReactive.

(* ================================================================== *)
(** ** Player.svelte: the timeline *)
(* ================================================================== *)

Module Timeline.
Import String.

(** A mouse or touch event on the [<progress>] bar: its [type], the
    [buttons] mask and [clientX] of a mouse event, [touches[0].clientX] of
    a touch event, and the [left] and [right] of the bar's bounding
    rectangle ([e.currentTarget.getBoundingClientRect()]). *)
Record BarEvent : Type := {
  type : string;
  buttons : Z;
  clientX : number;
  touch_clientX : number;
  rect_left : number;
  rect_right : number
}.

(** [time] and [duration] of the player. *)
Record State : Type := {
  time : number;
  duration : number
}.

Definition with_time (t : number) (s : State) : State :=
  {| time := t; duration := duration s |}.

(** [handle_click(e)]. *)
Definition handle_click (e : BarEvent) (s : State) : State :=
  with_time (div (mul (duration s) (sub (clientX e) (rect_left e)))
                 (sub (rect_right e) (rect_left e))) s.

(** [handleMove(e)]. *)
Definition handleMove (e : BarEvent) (s : State) : State :=
  if negb (truthy (duration s)) then s
  else if String.eqb (type e) "click" then handle_click e s
  else if negb (String.eqb (type e) "touchmove")
          && (Z.land (buttons e) 1 =? 0)%Z
  then s
  else
    let cx := if String.eqb (type e) "touchmove"
              then touch_clientX e
              else clientX e in
    with_time (div (mul (duration s) (sub cx (rect_left e)))
                   (sub (rect_right e) (rect_left e))) s.

(** [$: time = time || 0;  $: duration = duration || 0;] *)
Definition reactive_defaults (s : State) : State :=
  {| time := or_else (Some (time s)) 0;
     duration := or_else (Some (duration s)) 0 |}.

(** [value={time / duration || 0}] of the [<progress>] bar. *)
Definition progress_value (s : State) : number :=
  or_else (Some (div (time s) (duration s))) 0.

End Timeline.

(* ================================================================== *)
(** ** Index.svelte: the change notification *)
(* ================================================================== *)

Module Change.
Import String.

Section WithValue.

(** The type of the [value] prop and [JSON.stringify] on it. *)
Variable Value : Type.
Variable stringify : Value -> string.

(** [value], [old_value] and what [gradio.dispatch] received. *)
Record State : Type := {
  value : Value;
  old_value : Value;
  dispatched : list string
}.

(** The reactive block that compares [value] with [old_value]. *)
Definition change_block (s : State) : State :=
  if negb (String.eqb (stringify (value s)) (stringify (old_value s)))
  then {| value := value s; old_value := value s;
          dispatched := dispatched s ++ ["change"%string] |}
  else s.

(** [value] is assigned (by the backend or by a child through [bind:value]);
    the block runs again. *)
Definition assign (v : Value) (s : State) : State :=
  change_block {| value := v; old_value := old_value s;
                  dispatched := dispatched s |}.

Definition assign_all (vs : list Value) (s : State) : State :=
  fold_left (fun st v => assign v st) vs s.

(** How many times the serialised value changes along [vs], starting from
    the serialisation [prev]. *)
Fixpoint changes (prev : string) (vs : list Value) : nat :=
  match vs with
  | [] => O
  | v :: r =>
      if String.eqb (stringify v) prev
      then changes prev r
      else S (changes (stringify v) r)
  end.

End WithValue.

End Change.
(* ================================================================== *)
(** ** Facts about the numbers *)
(* ================================================================== *)

Section NumberFacts.
Import SliderCases.

Lemma gt_Fin (p q : Q) : gt (Fin p) (Fin q) = true <-> q < p.
Proof.
  simpl. rewrite negb_true_iff. split; intro H.
  - destruct (Qlt_le_dec q p) as [L | L]; [exact L |].
    apply Qle_bool_iff in L. congruence.
  - destruct (Qle_bool p q) eqn:E; [| reflexivity].
    apply Qle_bool_iff in E. lra.
Qed.

Lemma gt_Fin_false (p q : Q) : gt (Fin p) (Fin q) = false <-> p <= q.
Proof.
  simpl. rewrite negb_false_iff. apply Qle_bool_iff.
Qed.

Lemma Qeq_bool_false (p q : Q) : ~ p == q -> Qeq_bool p q = false.
Proof.
  intro H. destruct (Qeq_bool p q) eqn:E; [| reflexivity].
  apply Qeq_bool_iff in E. contradiction.
Qed.


(** [clamp] of finite arguments is finite and, when [lo <= hi], in range. *)
Lemma clamp_range (v lo hi : Q) :
  lo <= hi -> within lo hi (Slider.clamp v lo hi).
Proof.
  intro H. unfold Slider.clamp, Math_max.
  destruct (gt (Fin v) (Fin lo)) eqn:G1; unfold Math_min.
  - destruct (gt (Fin v) (Fin hi)) eqn:G2; simpl.
    + lra.
    + apply gt_Fin in G1. apply gt_Fin_false in G2. lra.
  - destruct (gt (Fin lo) (Fin hi)) eqn:G2; simpl.
    + apply gt_Fin in G2. lra.
    + lra.
Qed.

Lemma pow10_5 : Math_pow 10 5 = Fin 100000.
Proof. reflexivity. Qed.

Lemma round_Fin (z : Q) : Slider.round (Fin z) 5 = Fin (round5 z).
Proof.
  unfold Slider.round. rewrite pow10_5. reflexivity.
Qed.

Lemma round5_bounds (z : Q) :
  z + (1 # 4503599627370496) - (1 # 200000) < round5 z
  /\ round5 z <= z + (1 # 4503599627370496) + (1 # 200000).
Proof.
  unfold round5.
  set (y := (z + (1 # 4503599627370496)) * 100000 + (1 # 2)).
  pose proof (Qfloor_le y) as Hle.
  pose proof (Qlt_floor y) as Hlt.
  rewrite inject_Z_plus in Hlt.
  change (inject_Z 1) with 1 in Hlt.
  set (f := inject_Z (Qfloor y)) in *.
  assert (Hy : y == (z + (1 # 4503599627370496)) * 100000 + (1 # 2))
    by reflexivity.
  clearbody y f.
  split.
  - apply Qlt_shift_div_l; [reflexivity | lra].
  - apply Qle_shift_div_r; [reflexivity | lra].
Qed.


End NumberFacts.

(* ================================================================== *)
(** ** The slider: positions *)
(* ================================================================== *)

Section SliderPositions.
Import Slider SliderCases.

(** Neither [set_position] nor [update_position_from_pc] assigns [position]:
    the pixel offset is derived from it, never the reverse. *)
Lemma set_position_keeps_position (w : number) (s : State) :
  position (set_position w s) = position s.
Proof.
  unfold set_position. destruct (strict_eq w 0); reflexivity.
Qed.

Lemma update_position_from_pc_keeps_position (pc : number) (s : State) :
  position (update_position_from_pc pc s) = position s.
Proof. reflexivity. Qed.

(** X10.  With a content width of zero the division of [update_position]
    has no finite result, whatever the pointer's coordinate. *)
Lemma update_position_zero_width (cx : number) (s : State) (z : Q) :
  width (image_size s) = Fin z -> z == 0 ->
  ~ finite (position (update_position cx s)).
Proof.
  intros Hw Hz. unfold update_position. simpl. rewrite Hw.
  assert (E : Qeq_bool z 0 = true) by (apply Qeq_bool_iff; exact Hz).
  assert (L : Qle_bool 0 z = true) by (apply Qle_bool_iff; lra).
  destruct (sub cx (left (image_size s))) as [d | | |]; simpl.
  - rewrite E. destruct (d ?= 0); simpl; tauto.
  - rewrite L. simpl. tauto.
  - rewrite L. simpl. tauto.
  - tauto.
Qed.

Lemma Qfloor_between (k : Z) (y : Q) :
  inject_Z k <= y -> y < inject_Z k + 1 -> Qfloor y = k.
Proof.
  intros H1 H2.
  pose proof (Qfloor_le y) as Hle.
  pose proof (Qfloor_resp_le _ _ H1) as Hge.
  rewrite Qfloor_Z in Hge.
  assert (Hlt : (Qfloor y < k + 1)%Z).
  { rewrite Zlt_Qlt, inject_Z_plus. change (inject_Z 1) with 1.
    set (a := inject_Z (Qfloor y)) in *. set (b := inject_Z k) in *.
    clearbody a b. lra. }
  lia.
Qed.

(** A value with five decimals is a fixed point of [round(_, 5)]. *)
Lemma round5_fixed (k : Z) (z : Q) :
  z == inject_Z k / 100000 -> round5 z == z.
Proof.
  intro H. unfold round5.
  rewrite (Qfloor_between k).
  - symmetry. exact H.
  - rewrite H. field_simplify. lra.
  - rewrite H. field_simplify. lra.
Qed.

(** [round(_, 5)] keeps the unit interval. *)
Lemma round5_unit (z : Q) : 0 <= z <= 1 -> 0 <= round5 z <= 1.
Proof.
  intros [H0 H1]. unfold round5.
  set (y := (z + (1 # 4503599627370496)) * 100000 + (1 # 2)).
  assert (Hy0 : inject_Z 0 <= y) by (unfold y; change (inject_Z 0) with 0; lra).
  assert (Hy1 : y <= 100000 + (3 # 4)) by (unfold y; lra).
  apply Qfloor_resp_le in Hy0. rewrite Qfloor_Z in Hy0.
  apply Qfloor_resp_le in Hy1.
  change (Qfloor (100000 + (3 # 4))) with 100000%Z in Hy1.
  split.
  - apply Qle_shift_div_l; [reflexivity |].
    rewrite Qmult_0_l. change 0 with (inject_Z 0). rewrite <- Zle_Qle. exact Hy0.
  - apply Qle_shift_div_r; [reflexivity |].
    rewrite Qmult_1_l. change 100000 with (inject_Z 100000).
    rewrite <- Zle_Qle. exact Hy1.
Qed.

(** X3.  Inside the content area the computed position is in the unit
    interval. *)
Lemma update_position_inside (s : State) (cx w l : Q) :
  width (image_size s) = Fin w -> left (image_size s) = Fin l ->
  0 < w -> l <= cx -> cx <= l + w ->
  within 0 1 (position (update_position cx s)).
Proof.
  intros Hw Hl Hpos H1 H2. unfold update_position. simpl.
  rewrite Hw, Hl. simpl.
  rewrite Qeq_bool_false by lra.
  rewrite round_Fin. simpl. apply round5_unit.
  split.
  - apply Qle_shift_div_l; [exact Hpos | lra].
  - apply Qle_shift_div_r; [exact Hpos | lra].
Qed.

End SliderPositions.

(* ================================================================== *)
(** ** The slider: claims about positions *)
(* ================================================================== *)

Section SliderClaims.
Import Slider SliderCases.

(** C1, evaluated on the code.  [update_position] clamps the pixel offset
    [px] but not [position]: in the scenario, a pointer at x = 60 (inside the
    container, left of the content area) gives position -0.1, and a pointer
    at x = 540 gives 1.1; in the slider of the preview, a drag that leaves
    the container by 30 pixels gives -0.05.  None is in [0, 1], while [px]
    stays in [0, container_width]. *)
Theorem update_position_not_clamped :
  same (position (update_position 60 scenario)) (Fin (- (1 # 10)))
  /\ same (position (update_position 540 scenario)) (Fin (11 # 10))
  /\ same (position (update_position (- (30 # 1)) in_preview))
          (Fin (- (5 # 100)))
  /\ ~ within 0 1 (position (update_position 60 scenario))
  /\ ~ within 0 1 (position (update_position 540 scenario))
  /\ ~ within 0 1 (position (update_position (- (30 # 1)) in_preview))
  /\ px (update_position 60 scenario) = Fin 60
  /\ px (update_position 540 scenario) = Fin 540
  /\ px (update_position (- (30 # 1)) in_preview) = Fin 0.
Proof.
  repeat split; try reflexivity.
  - vm_compute. intros [H _]. apply H. reflexivity.
  - vm_compute. intros [_ H]. apply H. reflexivity.
  - vm_compute. intros [H _]. apply H. reflexivity.
Qed.

(** C7, evaluated on the code.  With a content width of 0,
    [update_position] divides by zero: the position becomes [Infinity] for a
    pointer right of [left], [NaN] for a pointer at [left].  A later
    geometry observation ([set_position] on resize, with the content now 400
    pixels wide) repairs the width but leaves the position as it is, and the
    pixel offset derived from a [NaN] position is [NaN]. *)
Theorem update_position_width_zero :
  position (update_position 300 unlaid) = PosInf
  /\ position (update_position 0 unlaid) = NaN
  /\ (let s := on_resize (layout (Some (Fin 400)) (Some (Fin 600))
                          (update_position 300 unlaid)) in
      width (image_size s) = Fin 400 /\ position s = PosInf)
  /\ (let s := on_resize (layout (Some (Fin 400)) (Some (Fin 600))
                          (update_position 0 unlaid)) in
      width (image_size s) = Fin 400 /\ position s = NaN /\ px s = NaN).
Proof.
  repeat split; reflexivity.
Qed.



End SliderClaims.

(* ================================================================== *)
(** ** The slider: drag sessions *)
(* ================================================================== *)

Section SliderDrag.
Import Slider SliderCases.

Lemma changed_refl (a : number) : changed a a = false.
Proof.
  destruct a as [q | | |]; simpl; try reflexivity.
  rewrite Qeq_bool_refl. reflexivity.
Qed.


(** The reactive statement touches the pixel offset only. *)
Lemma reactive_frame (before after : State) :
  emitted (reactive before after) = emitted after
  /\ position (reactive before after) = position after
  /\ disabled (reactive before after) = disabled after
  /\ image_size (reactive before after) = image_size after
  /\ was_dragged (reactive before after) = was_dragged after
  /\ drag_start_x (reactive before after) = drag_start_x after
  /\ active (reactive before after) = active after
  /\ container_width (reactive before after) = container_width after.
Proof.
  unfold reactive.
  destruct (changed (position before) (position after)); simpl; tauto.
Qed.

Lemma reactive_unchanged (s : State) : reactive s s = s.
Proof.
  unfold reactive. rewrite changed_refl. reflexivity.
Qed.

(** What [drag_start] leaves behind in an enabled component. *)
Lemma drag_start_enabled (e : DragEvent) (s : State) :
  disabled s = false ->
  drag_start e s
  = with_was_dragged false
      (with_drag_start_x (x e) (update_position (x e) (with_active true s))).
Proof.
  intro H. unfold drag_start. rewrite H. reflexivity.
Qed.

(** A pointer-down in an enabled component, reactive statement included. *)
Lemma down_step (e : DragEvent) (s : State) :
  disabled s = false ->
  emitted (reactive s (drag_start e s))
  = emitted s ++ notify (position s) (position (update_position (x e) s))
  /\ position (reactive s (drag_start e s))
     = position (update_position (x e) s)
  /\ disabled (reactive s (drag_start e s)) = false
  /\ image_size (reactive s (drag_start e s)) = image_size s
  /\ was_dragged (reactive s (drag_start e s)) = false
  /\ drag_start_x (reactive s (drag_start e s)) = x e
  /\ active (reactive s (drag_start e s)) = true.
Proof.
  intro H.
  destruct (reactive_frame s (drag_start e s))
    as (F1 & F2 & F3 & F4 & F5 & F6 & F7 & _).
  rewrite F1, F2, F3, F4, F5, F6, F7, (drag_start_enabled e s H).
  simpl. repeat split; try reflexivity. exact H.
Qed.

(** A move in an enabled component, reactive statement included. *)
Lemma move_step (e : DragEvent) (s : State) :
  disabled s = false ->
  emitted (reactive s (drag_move e s))
  = emitted s ++ notify (position s) (position (update_position (x e) s))
  /\ position (reactive s (drag_move e s))
     = position (update_position (x e) s)
  /\ disabled (reactive s (drag_move e s)) = false
  /\ image_size (reactive s (drag_move e s)) = image_size s
  /\ was_dragged (reactive s (drag_move e s))
     = was_dragged s || beyond_threshold (drag_start_x s) e
  /\ drag_start_x (reactive s (drag_move e s)) = drag_start_x s
  /\ active (reactive s (drag_move e s)) = active s.
Proof.
  intro H.
  destruct (reactive_frame s (drag_move e s))
    as (F1 & F2 & F3 & F4 & F5 & F6 & F7 & _).
  rewrite F1, F2, F3, F4, F5, F6, F7.
  unfold drag_move, beyond_threshold. rewrite H. simpl.
  destruct (Double.abs_sub_gt (x e) (drag_start_x s) 3); simpl.
  - rewrite orb_true_r. repeat split; try reflexivity. exact H.
  - rewrite orb_false_r. repeat split; try reflexivity. exact H.
Qed.

(** A pointer-up in an enabled component, reactive statement included. *)
Lemma up_step (e : DragEvent) (s : State) :
  disabled s = false ->
  emitted (reactive s (drag_end e s))
  = emitted s ++ (if was_dragged s then [] else [EmitClick (sourceEvent e)])
  /\ position (reactive s (drag_end e s)) = position s
  /\ active (reactive s (drag_end e s)) = false.
Proof.
  intro H.
  destruct (reactive_frame s (drag_end e s)) as (F1 & F2 & _ & _ & _ & _ & F7 & _).
  rewrite F1, F2, F7. unfold drag_end. rewrite H. simpl.
  destruct (was_dragged s); simpl; rewrite ?app_nil_r; auto.
Qed.

(** The position [update_position] computes depends on the content area
    only. *)
Lemma update_position_by_geometry (cx : number) (s t : State) :
  image_size s = image_size t ->
  position (update_position cx s) = position (update_position cx t).
Proof.
  intro H. unfold update_position. simpl. rewrite H. reflexivity.
Qed.

Lemma last_default (A : Type) (a : A) (l : list A) (d d' : A) :
  last (a :: l) d = last (a :: l) d'.
Proof.
  revert a. induction l as [| b l IH]; intro a; [reflexivity |].
  change (last (b :: l) d = last (b :: l) d'). apply IH.
Qed.

(** Once a session is open: the flag is the disjunction of the tests of the
    moves delivered so far, each move lets the parent see its position if it
    is a new one, and the position is the one of the last move. *)
Lemma moves_run (s : State) (ms : list DragEvent) :
  forall t : State,
    disabled t = false -> image_size t = image_size s ->
    was_dragged (run (map Move ms) t)
    = was_dragged t || existsb (beyond_threshold (drag_start_x t)) ms
    /\ emitted (run (map Move ms) t)
       = emitted t
         ++ notifications (position t)
              (map (fun m => position (update_position (x m) s)) ms)
    /\ position (run (map Move ms) t)
       = last (map (fun m => position (update_position (x m) s)) ms)
              (position t)
    /\ disabled (run (map Move ms) t) = false
    /\ active (run (map Move ms) t) = active t.
Proof.
  induction ms as [| m ms IH]; intros t D G.
  - simpl. rewrite orb_false_r, app_nil_r. auto.
  - change (run (map Move (m :: ms)) t)
      with (run (map Move ms) (reactive t (drag_move m t))).
    destruct (move_step m t D) as (E & P & D' & G' & W & X & A).
    destruct (IH (reactive t (drag_move m t)) D') as (I1 & I2 & I3 & I4 & I5).
    { rewrite G'. exact G. }
    rewrite I1, I2, I3, I5, E, P, W, X, A.
    rewrite (update_position_by_geometry (x m) t s G).
    split; [simpl; symmetry; apply orb_assoc |].
    split; [simpl; rewrite <- app_assoc; reflexivity |].
    split; [| split; [exact I4 | reflexivity]].
    destruct ms as [| m' ms']; [reflexivity |].
    change (last (map (fun m0 => position (update_position (x m0) s))
                      (m :: m' :: ms')) (position t))
      with (last (map (fun m0 => position (update_position (x m0) s))
                      (m' :: ms')) (position t)).
    apply last_default.
Qed.












End SliderDrag.

(* ================================================================== *)
(** ** The preview: synchronisation of the two videos *)
(* ================================================================== *)

Section PreviewSync.
Import Media Preview PreviewCases.


(** When the autoplay guard is false the block is its synchronising part. *)
Lemma reactive_block_after_autoplay (s : State) :
  video_is_ready s && autoplay s && negb (initial_autoplay_done s) = false ->
  reactive_block s = sync_block s.
Proof.
  intro H. unfold reactive_block, autoplay_block. rewrite H.
  destruct (video1_el s); reflexivity.
Qed.

Lemma sync_block_both (s : State) (v1 v2 : Video) :
  video1_el s = Some v1 ->
  video2_el s = Some v2 ->
  sync_block s = with_video2 (slave_after v1 v2) s.
Proof.
  intros H1 H2. unfold sync_block. rewrite H1, H2. reflexivity.
Qed.





(** C3.  With both elements present, the synchronising part of the block
    calls nothing on the slave when the two [paused] flags agree (as they
    stand after the time correction, which does not change them); when they
    differ it calls [pause()] once if the master is paused and [play()] once
    otherwise, and no other transport call.  The master receives no call.
    A run of the whole reactive block in which the autoplay guard is false
    is a run of the synchronising part. *)
Theorem sync_pause_follows_master (s : State) (v1 v2 : Video) :
  video1_el s = Some v1 ->
  video2_el s = Some v2 ->
  exists v2' : Video,
    video2_el (sync_block s) = Some v2'
    /\ video1_el (sync_block s) = Some v1
    /\ calls v2'
       = calls v2
         ++ (if Bool.eqb (paused v1) (paused v2) then []
             else if paused v1 then [Pause] else [Play])
    /\ (paused v1 = true -> paused v2 = false ->
        calls v2' = calls v2 ++ [Pause]
        /\ count Pause v2' = S (count Pause v2)
        /\ count Play v2' = count Play v2)
    /\ (video_is_ready s && autoplay s && negb (initial_autoplay_done s)
        = false ->
        reactive_block s = sync_block s).
Proof.
  intros H1 H2.
  pose proof (reactive_block_after_autoplay s) as RB.
  rewrite (sync_block_both s v1 v2 H1 H2) in *. simpl.
  exists (slave_after v1 v2). split; [reflexivity |]. split; [exact H1 |].
  assert (G : calls (slave_after v1 v2)
              = calls v2 ++ (if Bool.eqb (paused v1) (paused v2) then []
                             else if paused v1 then [Pause] else [Play])).
  { unfold slave_after.
    destruct (Double.abs_sub_gt (currentTime v1) (currentTime v2) (1 # 10));
      simpl; destruct (paused v1), (paused v2); simpl; rewrite ?app_nil_r;
      try reflexivity;
      unfold play; simpl; destruct (may_play v2); reflexivity. }
  split; [exact G |].
  split; [| exact RB].
  intros P1 P2. rewrite P1, P2 in G. simpl in G.
  split; [exact G |].
  unfold count. rewrite G, !filter_app, !length_app. simpl.
  split; lia.
Qed.

Lemma sync_pause_follows_master_witness :
  exists v2' : Video,
    video2_el (sync_block (both false (clip 10 true true)
                             (clip 10 false true))) = Some v2'
    /\ calls v2' = [Pause]
    /\ count Pause v2' = 1%nat
    /\ count Play v2' = 0%nat.
Proof.
  destruct (sync_pause_follows_master
              (both false (clip 10 true true) (clip 10 false true))
              (clip 10 true true) (clip 10 false true) eq_refl eq_refl)
    as (v2' & E2 & _ & _ & H & _).
  exists v2'. split; [exact E2 |].
  destruct (H eq_refl eq_refl) as (Hc & Hp & Hq).
  split; [exact Hc |]. split; [exact Hp | exact Hq].
Defined.

End PreviewSync.

(* ================================================================== *)
(** ** The preview: toggling and the initial autoplay *)
(* ================================================================== *)

Section PreviewPlayback.
Import Media Preview PreviewCases.

(** C5 as the specification states it fails on a stalled master: the master
    is not actually playing in the sense of [Player.isPlaying], yet
    [toggle_playback], which reads [paused] only, calls [pause()] on both
    elements and [play()] on neither. *)
Lemma toggle_playback_stalled_pauses :
  Player.isPlaying stalled = false
  /\ video1_el (toggle_playback (both false stalled (clip 5 false true)))
     = Some (pause stalled)
  /\ video2_el (toggle_playback (both false stalled (clip 5 false true)))
     = Some (pause (clip 5 false true))
  /\ calls (pause stalled) = [Pause]
  /\ calls (pause (clip 5 false true)) = [Pause]
  /\ calls (pause stalled) <> calls stalled ++ [Play].
Proof.
  repeat split; try reflexivity. discriminate.
Qed.

(** The test the stalled case does pass through is the one of the single
    player: [play_pause] calls [play()] whenever [isPlaying] is false. *)
Lemma play_pause_not_playing (video : Video) :
  Player.isPlaying video = false ->
  calls (fst (Player.play_pause false video)) = calls video ++ [Play].
Proof.
  intro H. unfold Player.play_pause. rewrite H. simpl.
  unfold play. destruct (may_play video); reflexivity.
Qed.

(** C5, amended.  With both elements present, [toggle_playback] reads the
    master's [paused] flag and nothing else: if it is set, [play()] is
    called once on each element, otherwise [pause()] is called once on
    each.  Each element receives its call whether or not the runtime lets
    the other one play. *)
Theorem toggle_playback_by_paused (s : State) (v1 v2 : Video) :
  video1_el s = Some v1 ->
  video2_el s = Some v2 ->
  exists v1' v2' : Video,
    video1_el (toggle_playback s) = Some v1'
    /\ video2_el (toggle_playback s) = Some v2'
    /\ calls v1' = calls v1 ++ [if paused v1 then Play else Pause]
    /\ calls v2' = calls v2 ++ [if paused v1 then Play else Pause]
    /\ v1' = (if paused v1 then catch_ignore (play v1) else pause v1)
    /\ v2' = (if paused v1 then catch_ignore (play v2) else pause v2)
    /\ (paused v1 = true -> may_play v1 = false ->
        calls v2' = calls v2 ++ [Play])
    /\ (paused v1 = true -> may_play v2 = false ->
        calls v1' = calls v1 ++ [Play]).
Proof.
  intros H1 H2. unfold toggle_playback. rewrite H1, H2.
  assert (P : forall v, calls (catch_ignore (play v)) = calls v ++ [Play]).
  { intro v. unfold play. destruct (may_play v); reflexivity. }
  destruct (paused v1) eqn:E; simpl.
  - exists (catch_ignore (play v1)), (catch_ignore (play v2)).
    repeat split; auto.
  - exists (pause v1), (pause v2).
    repeat split; auto; discriminate.
Qed.

Lemma toggle_playback_by_paused_witness :
  exists v1' v2' : Video,
    video1_el (toggle_playback (both false (clip 5 true false)
                                  (clip 5 true true))) = Some v1'
    /\ video2_el (toggle_playback (both false (clip 5 true false)
                                     (clip 5 true true))) = Some v2'
    /\ calls v1' = [Play]
    /\ calls v2' = [Play].
Proof.
  destruct (toggle_playback_by_paused
              (both false (clip 5 true false) (clip 5 true true))
              (clip 5 true false) (clip 5 true true) eq_refl eq_refl)
    as (v1' & v2' & E1 & E2 & C1 & C2 & _).
  exists v1', v2'. repeat split; assumption.
Defined.

Lemma sync_block_frame (s : State) :
  video1_el (sync_block s) = video1_el s
  /\ autoplay (sync_block s) = autoplay s
  /\ video_is_ready (sync_block s) = video_is_ready s
  /\ initial_autoplay_done (sync_block s) = initial_autoplay_done s.
Proof.
  unfold sync_block.
  destruct (video1_el s) eqn:E1; [destruct (video2_el s) |];
    simpl; rewrite ?E1; auto.
Qed.

Lemma count_received (c d : Call) (b : bool) (v : Video) :
  count c (received d b v)
  = (count c v + match c, d with
                 | Play, Play | Pause, Pause => 1
                 | _, _ => 0
                 end)%nat.
Proof.
  unfold count, received. simpl. rewrite filter_app, length_app.
  destruct c, d; reflexivity.
Qed.

(** One run of the reactive block: the master receives one more [play()]
    exactly when the autoplay guard holds, and then the latch is set. *)
Lemma reactive_block_latch (s : State) :
  master_plays (reactive_block s)
  = (master_plays s + (if fires s then 1 else 0))%nat
  /\ initial_autoplay_done (reactive_block s)
     = initial_autoplay_done s || fires s
  /\ autoplay (reactive_block s) = autoplay s
  /\ video_is_ready (reactive_block s) = video_is_ready s
  /\ present (video1_el (reactive_block s)) = present (video1_el s).
Proof.
  unfold reactive_block, master_plays.
  destruct (sync_block_frame (autoplay_block s)) as (F1 & F2 & F3 & F4).
  rewrite F1, F2, F3, F4. unfold autoplay_block, fires.
  destruct (video1_el s) as [v1 |] eqn:E1.
  - destruct (video_is_ready s && autoplay s && negb (initial_autoplay_done s))
      eqn:G; simpl; rewrite ?E1.
    + unfold catch_ignore, play.
      destruct (may_play v1); simpl; rewrite count_received, orb_true_r; auto.
    + rewrite orb_false_r, Nat.add_0_r. simpl. auto.
  - rewrite E1, orb_false_r. auto.
Qed.

Lemma changed_frame (w : Which) (t : Q) (p e : bool) (r : nat) (a : bool)
    (s : State) :
  master_plays (changed w t p e r a s) = master_plays s
  /\ initial_autoplay_done (changed w t p e r a s) = initial_autoplay_done s
  /\ autoplay (changed w t p e r a s) = autoplay s
  /\ video_is_ready (changed w t p e r a s) = video_is_ready s
  /\ present (video1_el (changed w t p e r a s)) = present (video1_el s).
Proof.
  unfold changed, master_plays.
  destruct w.
  - destruct (video1_el s) eqn:E; simpl; rewrite ?E; auto.
  - destruct (video2_el s) eqn:E; simpl; auto.
Qed.

(** What every step preserves, and how it moves the latch and the count. *)
Lemma step_latch (ev : Event) (s : State) :
  (master_plays (step ev s) + (if initial_autoplay_done s then 1 else 0)
   = master_plays s + (if initial_autoplay_done (step ev s) then 1 else 0))%nat
  /\ (initial_autoplay_done s = true -> initial_autoplay_done (step ev s) = true)
  /\ autoplay (step ev s) = autoplay s
  /\ (video_is_ready s = true -> video_is_ready (step ev s) = true)
  /\ present (video1_el (step ev s)) = present (video1_el s).
Proof.
  assert (K : forall t : State,
             (master_plays (reactive_block t)
              + (if initial_autoplay_done t then 1 else 0)
              = master_plays t
                + (if initial_autoplay_done (reactive_block t) then 1 else 0))%nat
             /\ (initial_autoplay_done t = true ->
                 initial_autoplay_done (reactive_block t) = true)).
  { intro t. destruct (reactive_block_latch t) as (R1 & R2 & _).
    rewrite R1, R2. unfold fires.
    destruct (video1_el t), (video_is_ready t), (autoplay t),
      (initial_autoplay_done t); simpl; split; auto. }
  destruct ev as [| | w t p e r a]; simpl.
  - destruct (K (handle_video_ready s)) as [K1 K2].
    destruct (reactive_block_latch (handle_video_ready s))
      as (_ & _ & R3 & R4 & R5).
    rewrite R3, R4, R5. simpl in *. auto.
  - destruct (K s) as [K1 K2].
    destruct (reactive_block_latch s) as (_ & _ & R3 & R4 & R5).
    rewrite R3, R4, R5. auto.
  - destruct (K (changed w t p e r a s)) as [K1 K2].
    destruct (reactive_block_latch (changed w t p e r a s))
      as (_ & _ & R3 & R4 & R5).
    destruct (changed_frame w t p e r a s) as (C1 & C2 & C3 & C4 & C5).
    rewrite R3, R4, R5, C3, C4, C5. rewrite C1, C2 in K1. rewrite C2 in K2.
    auto.
Qed.

(** A ready notification sets the latch when autoplay is configured and the
    master is bound. *)
Lemma ready_sets_latch (s : State) :
  autoplay s = true -> present (video1_el s) = true ->
  initial_autoplay_done (step Ready s) = true.
Proof.
  intros A P. simpl.
  destruct (reactive_block_latch (handle_video_ready s)) as (_ & R2 & _).
  rewrite R2. unfold fires. simpl.
  destruct (video1_el s); [| discriminate P].
  rewrite A. destruct (initial_autoplay_done s); reflexivity.
Qed.

Lemma run_latch (evs : list Event) :
  forall s : State,
    (master_plays (run evs s) + (if initial_autoplay_done s then 1 else 0)
     = master_plays s + (if initial_autoplay_done (run evs s) then 1 else 0))%nat
    /\ (autoplay s = true -> present (video1_el s) = true ->
        initial_autoplay_done s = true \/ In Ready evs ->
        initial_autoplay_done (run evs s) = true).
Proof.
  induction evs as [| ev evs IH]; intro s.
  - simpl. split; [reflexivity |]. intros _ _ [H | []]. exact H.
  - change (run (ev :: evs) s) with (run evs (step ev s)).
    destruct (step_latch ev s) as (S1 & S2 & S3 & _ & S5).
    destruct (IH (step ev s)) as [I1 I2].
    split; [lia |].
    intros A P H. apply I2.
    + rewrite S3. exact A.
    + rewrite S5. exact P.
    + destruct H as [H | [H | H]].
      * left. apply S2. exact H.
      * left. subst ev. apply ready_sets_latch; assumption.
      * right. exact H.
Qed.

(** C6.  From a state whose latch is unset, whatever ready notifications,
    render passes and changes of the elements' transport state follow, the
    master receives at most one [play()] from the reactive block: the count
    grows by one exactly if the latch ends up set.  With autoplay configured
    and the master bound, the first ready notification calls [play()] on the
    master and sets the latch, and every sequence that contains a ready
    notification (two in a row in particular) makes exactly one call. *)
Theorem autoplay_at_most_once (s : State) (evs : list Event) :
  initial_autoplay_done s = false ->
  master_plays (run evs s)
  = (master_plays s + (if initial_autoplay_done (run evs s) then 1 else 0))%nat
  /\ (master_plays (run evs s) <= master_plays s + 1)%nat
  /\ (autoplay s = true ->
      forall v1 : Video, video1_el s = Some v1 ->
        (exists v1' : Video,
            video1_el (autoplay_block (handle_video_ready s)) = Some v1'
            /\ calls v1' = calls v1 ++ [Play])
        /\ initial_autoplay_done (step Ready s) = true
        /\ (In Ready evs -> master_plays (run evs s) = S (master_plays s))
        /\ master_plays (run [Ready; Ready] s) = S (master_plays s)).
Proof.
  intro L.
  destruct (run_latch evs s) as [R1 R2]. rewrite L in R1.
  assert (E : master_plays (run evs s)
              = (master_plays s
                 + (if initial_autoplay_done (run evs s) then 1 else 0))%nat)
    by lia.
  split; [exact E |].
  split; [destruct (initial_autoplay_done (run evs s)); lia |].
  intros A v1 H1.
  assert (P : present (video1_el s) = true) by (rewrite H1; reflexivity).
  split.
  { unfold autoplay_block, handle_video_ready. simpl. rewrite H1, A, L. simpl.
    eexists. split; [reflexivity |].
    unfold play. destruct (may_play v1); reflexivity. }
  split; [apply ready_sets_latch; assumption |].
  split.
  - intro I. rewrite E, (R2 A P (or_intror I)). lia.
  - destruct (run_latch [Ready; Ready] s) as [T1 T2].
    rewrite L in T1. rewrite (T2 A P) in T1; [lia |].
    right. left. reflexivity.
Qed.

Lemma autoplay_at_most_once_witness :
  master_plays (run [Ready; Ready] (both true (clip 0 true true)
                                      (clip 0 true true))) = 1%nat
  /\ master_plays (run [Ready; Tick; Changed Master 3 false false 4 true;
                        Ready; Tick]
                     (both true (clip 0 true false) (clip 0 true true)))
     = 1%nat.
Proof.
  split.
  - destruct (autoplay_at_most_once
                (both true (clip 0 true true) (clip 0 true true))
                [Ready; Ready] eq_refl) as (_ & _ & H).
    destruct (H eq_refl (clip 0 true true) eq_refl) as (_ & _ & _ & H2).
    exact H2.
  - destruct (autoplay_at_most_once
                (both true (clip 0 true false) (clip 0 true true))
                [Ready; Tick; Changed Master 3 false false 4 true; Ready; Tick]
                eq_refl) as (_ & _ & H).
    destruct (H eq_refl (clip 0 true false) eq_refl) as (_ & _ & H1 & _).
    apply H1. left. reflexivity.
Defined.

End PreviewPlayback.

(* ================================================================== *)
(** ** The root component: the position prop *)
(* ================================================================== *)

Section IndexPosition.
Import Index.

(** On a finite prop the derived value is the clamp to [0, 100] over 100. *)
Lemma normalised_slider_position_Fin (q : Q) :
  same (normalised_slider_position (Fin q))
       (Fin (Qmax 0 (Qmin 100 q) / 100)).
Proof.
  unfold normalised_slider_position, Math_max, Math_min.
  destruct (gt (Fin 100) (Fin q)) eqn:G1.
  - apply gt_Fin in G1.
    destruct (gt (Fin 0) (Fin q)) eqn:G2; simpl.
    + apply gt_Fin in G2.
      rewrite (Q.min_r 100 q) by lra. rewrite (Q.max_l 0 q) by lra.
      reflexivity.
    + apply gt_Fin_false in G2.
      rewrite (Q.min_r 100 q) by lra. rewrite (Q.max_r 0 q) by lra.
      reflexivity.
  - apply gt_Fin_false in G1. simpl.
    rewrite (Q.min_l 100 q) by lra. rewrite (Q.max_r 0 100) by lra.
    reflexivity.
Qed.

(** C10.  For every value of the [position] prop that is a number (anything
    but [NaN]: finite, below 0, above 100, or infinite),
    [normalised_slider_position] is [max(0, min(100, position)) / 100] and
    lies in [0, 1]; so does the [position] a slider created with it
    starts from. *)
Theorem normalised_slider_position_unit (p : number) :
  p <> NaN ->
  normalised_slider_position p = div (Math_max 0 (Math_min 100 p)) 100
  /\ within 0 1 (normalised_slider_position p)
  /\ (forall q : Q, p = Fin q ->
        same (normalised_slider_position p)
             (Fin (Qmax 0 (Qmin 100 q) / 100)))
  /\ (forall (dis : bool) (size : Slider.Rect) (e pe : option number),
        within 0 1
          (Slider.position
             (Slider.init (normalised_slider_position p) dis size e pe))).
Proof.
  intro H.
  assert (W : within 0 1 (normalised_slider_position p)).
  { destruct p as [q | | |]; try contradiction; try (vm_compute; split; discriminate).
    pose proof (normalised_slider_position_Fin q) as S.
    destruct (normalised_slider_position (Fin q)) as [r | | |]; simpl in S;
      try contradiction.
    simpl. rewrite S.
    split.
    - apply Qle_shift_div_l; [reflexivity |].
      rewrite Qmult_0_l. apply Q.le_max_l.
    - apply Qle_shift_div_r; [reflexivity |].
      rewrite Qmult_1_l. apply Q.max_lub; [lra | apply Q.le_min_l]. }
  split; [reflexivity |]. split; [exact W |]. split.
  - intros q E. subst p. apply normalised_slider_position_Fin.
  - intros. simpl. exact W.
Qed.

Lemma normalised_slider_position_unit_witness :
  within 0 1 (normalised_slider_position 150)
  /\ within 0 1 (normalised_slider_position (- (3 # 1)))
  /\ within 0 1 (normalised_slider_position PosInf).
Proof.
  assert (N : forall q : Q, Fin q <> NaN) by (intros q E; discriminate E).
  assert (I : PosInf <> NaN) by (intro E; discriminate E).
  split; [| split].
  - exact (proj1 (proj2 (normalised_slider_position_unit 150 (N 150)))).
  - exact (proj1 (proj2 (normalised_slider_position_unit (- (3 # 1))
                           (N (- (3 # 1)))))).
  - exact (proj1 (proj2 (normalised_slider_position_unit PosInf I))).
Defined.

End IndexPosition.

(* ================================================================== *)
(** ** The examples of the specification, run on the model *)
(* ================================================================== *)

Section SpecificationExamples.
Import Slider SliderCases.

(** X1.  While [disabled] is set the three handlers do nothing. *)
Lemma disabled_ignores_pointer (ps : list Pointer) :
  forall s : State, disabled s = true -> run ps s = s.
Proof.
  induction ps as [| p ps IH]; intros s H; [reflexivity |].
  change (run (p :: ps) s) with (run ps (reactive s (handle p s))).
  assert (E : handle p s = s).
  { destruct p; simpl;
      [unfold drag_start | unfold drag_move | unfold drag_end];
      rewrite H; reflexivity. }
  rewrite E, reactive_unchanged. apply IH. exact H.
Qed.

(** Pointer down at 300, move to 340, pointer up: positions 0.5 (the value
    the slider already had) then 0.6, no click. *)
Example end_to_end_scenario :
  let s := run [Down {| x := 300; sourceEvent := 1 |};
                Move {| x := 340; sourceEvent := 2 |};
                Up {| x := 340; sourceEvent := 3 |}] scenario in
  same (position s) (Fin (6 # 10))
  /\ was_dragged s = true
  /\ active s = false
  /\ same (px s) (Fin 340)
  /\ emitted s = [EmitPosition (position (update_position 340 scenario))]
  /\ same (position (update_position 300 scenario)) (Fin (1 # 2)).
Proof.
  vm_compute. repeat split; reflexivity.
Qed.

(** A drift of 0.2 is corrected, a drift of 0.05 is not. *)
Example drift_examples :
  option_map Media.currentTime
    (Preview.video2_el
       (Preview.reactive_block
          (PreviewCases.both false (PreviewCases.clip 10 false true)
             (PreviewCases.clip (98 # 10) false true))))
  = Some 10
  /\ option_map Media.currentTime
       (Preview.video2_el
          (Preview.reactive_block
             (PreviewCases.both false (PreviewCases.clip 10 false true)
                (PreviewCases.clip (995 # 100) false true))))
     = Some (995 # 100).
Proof.
  split; vm_compute; reflexivity.
Qed.

End SpecificationExamples.

(* ================================================================== *)
(** ** More about the slider: rounding and the pixel offset *)
(* ================================================================== *)

Section SliderGeometry.
Import Slider SliderCases SliderReactive.

Lemma round5_monotone (z z' : Q) : z <= z' -> round5 z <= round5 z'.
Proof.
  intro H. unfold round5.
  assert (L : (z + (1 # 4503599627370496)) * 100000 + (1 # 2)
              <= (z' + (1 # 4503599627370496)) * 100000 + (1 # 2)) by lra.
  apply Qfloor_resp_le in L. rewrite Zle_Qle in L.
  apply Qmult_le_compat_r; [exact L | discriminate].
Qed.

(** [clamp] of a value between the bounds is that value. *)
Lemma clamp_between (v lo hi : Q) :
  lo <= v -> v <= hi ->
  exists r : Q, clamp v lo hi = Fin r /\ r == v.
Proof.
  intros H1 H2. unfold clamp, Math_max.
  destruct (gt (Fin v) (Fin lo)) eqn:G1; unfold Math_min.
  - assert (G2 : gt (Fin v) (Fin hi) = false) by (apply gt_Fin_false; exact H2).
    rewrite G2. exists v. split; reflexivity.
  - apply gt_Fin_false in G1.
    assert (G2 : gt (Fin lo) (Fin hi) = false) by (apply gt_Fin_false; lra).
    rewrite G2. exists lo. split; [reflexivity | lra].
Qed.

(** With an upper bound of 0 (container not laid out) every finite value is
    clamped to 0. *)
Lemma clamp_zero (v : Q) : clamp v 0 0 = Fin 0.
Proof.
  unfold clamp, Math_max.
  destruct (gt (Fin v) (Fin 0)) eqn:G1; unfold Math_min.
  - rewrite G1. reflexivity.
  - reflexivity.
Qed.

(** X5.  [round(_, 5)] on the unit interval.  For [0 <= z <= 1] the result
    is a whole number [k] of 1e-5 steps with [0 <= k <= 100000], less than
    1e-5 away from [z], and rounding it again changes nothing; [Infinity],
    [-Infinity] and [NaN] pass through unchanged. *)
Theorem round_five_decimals :
  (forall z : Q,
      0 <= z -> z <= 1 ->
      exists (r : Q) (k : Z),
        round (Fin z) 5 = Fin r
        /\ r == inject_Z k / 100000
        /\ (0 <= k <= 100000)%Z
        /\ Qabs (r - z) < 1 # 100000
        /\ same (round (round (Fin z) 5) 5) (round (Fin z) 5))
  /\ round PosInf 5 = PosInf
  /\ round NegInf 5 = NegInf
  /\ round NaN 5 = NaN.
Proof.
  split; [| repeat split; reflexivity].
  intros z H0 H1.
  set (k := Qfloor ((z + (1 # 4503599627370496)) * 100000 + (1 # 2))).
  exists (round5 z), k.
  split; [apply round_Fin |].
  split; [reflexivity |].
  pose proof (round5_bounds z) as [B1 B2].
  pose proof (round5_unit z (conj H0 H1)) as [U0 U1].
  assert (E : round5 z * 100000 == inject_Z k) by (unfold round5, k; field).
  split.
  { split.
    - rewrite Zle_Qle. change (inject_Z 0) with 0.
      set (f := inject_Z k) in *. clearbody f. lra.
    - rewrite Zle_Qle. change (inject_Z 100000) with 100000.
      set (f := inject_Z k) in *. clearbody f. lra. }
  split; [apply (proj2 (Qabs_Qlt_condition _ _)); lra |].
  rewrite !round_Fin. simpl.
  apply (round5_fixed k). reflexivity.
Qed.

Lemma round_five_decimals_witness :
  exists (r : Q) (k : Z),
    round (Fin (123456 # 1000000)) 5 = Fin r
    /\ r == inject_Z k / 100000
    /\ (0 <= k <= 100000)%Z
    /\ Qabs (r - (123456 # 1000000)) < 1 # 100000.
Proof.
  destruct (proj1 round_five_decimals (123456 # 1000000))
    as (r & k & E & V & B & A & _); try lra.
  exists r, k. auto.
Defined.

(** X4.  The position is monotone in the pointer's coordinate: with a content
    area of positive width, a pointer further right never gives a smaller
    position. *)
Theorem update_position_monotone (s : State) (w l x1 x2 : Q) :
  width (image_size s) = Fin w ->
  left (image_size s) = Fin l ->
  0 < w -> x1 <= x2 ->
  exists p1 p2 : Q,
    position (update_position x1 s) = Fin p1
    /\ position (update_position x2 s) = Fin p2
    /\ p1 <= p2.
Proof.
  intros Hw Hl Hpos Hx.
  exists (round5 ((x1 + - l) / w)), (round5 ((x2 + - l) / w)).
  unfold update_position. simpl. rewrite Hw, Hl. simpl.
  rewrite Qeq_bool_false by lra.
  rewrite !round_Fin.
  split; [reflexivity |]. split; [reflexivity |].
  apply round5_monotone.
  apply Qmult_le_compat_r; [lra |].
  apply Qlt_le_weak, Qinv_lt_0_compat. exact Hpos.
Qed.

Lemma update_position_monotone_witness :
  exists p1 p2 : Q,
    position (update_position 300 scenario) = Fin p1
    /\ position (update_position 340 scenario) = Fin p2
    /\ p1 <= p2.
Proof.
  apply (update_position_monotone scenario 400 100 300 340);
    try reflexivity; lra.
Defined.

Lemma update_position_inside_witness :
  within 0 1 (position (update_position 100 scenario))
  /\ within 0 1 (position (update_position 500 scenario)).
Proof.
  split.
  - apply (update_position_inside scenario 100 400 100);
      try reflexivity; lra.
  - apply (update_position_inside scenario 500 400 100);
      try reflexivity; lra.
Defined.

Lemma update_position_zero_width_witness :
  ~ finite (position (update_position 300 unlaid))
  /\ ~ finite (position (update_position NaN unlaid)).
Proof.
  split.
  - apply (update_position_zero_width 300 unlaid 0); reflexivity.
  - apply (update_position_zero_width NaN unlaid 0); reflexivity.
Defined.



(** X8.  [set_position] derives the pixel offset from the position, never the
    reverse, and measuring twice is measuring once: [set_position] and
    [update_position_from_pc] leave [position] (and what was emitted) as
    they are, and the resize handler is idempotent as long as the layout
    does not change. *)
Theorem on_resize_idempotent (s : State) :
  on_resize (on_resize s) = on_resize s
  /\ position (on_resize s) = position s
  /\ emitted (on_resize s) = emitted s
  /\ (forall w : number,
        position (set_position w s) = position s
        /\ emitted (set_position w s) = emitted s)
  /\ (forall pc : number,
        position (update_position_from_pc pc s) = position s
        /\ emitted (update_position_from_pc pc s) = emitted s).
Proof.
  assert (K : forall w, position (set_position w s) = position s
                        /\ emitted (set_position w s) = emitted s).
  { intro w. unfold set_position. destruct (strict_eq w 0); split; reflexivity. }
  split.
  - unfold on_resize, set_position. simpl.
    destruct (strict_eq (width (image_size s)) 0) eqn:E; simpl.
    + destruct (strict_eq (or_else (el s) 0) 0) eqn:E2; reflexivity.
    + rewrite E. reflexivity.
  - split; [apply K |]. split; [apply K |]. split; [exact K |].
    intro pc. split; reflexivity.
Qed.

(** X9.  The pixel offset after [set_position].  With a finite position and
    content area and a parent measured [c >= 0] pixels wide, the offset is in
    [0, c].  While the parent is not bound yet the container width and the
    offset are both 0. *)
Theorem set_position_offset_in_container (s : State) (p w l : Q) :
  position s = Fin p ->
  width (image_size s) = Fin w ->
  left (image_size s) = Fin l ->
  ~ w == 0 ->
  (forall c : Q,
      parent_el s = Some (Fin c) -> 0 <= c ->
      exists cw : Q,
        container_width (on_resize s) = Fin cw
        /\ cw == c
        /\ within 0 cw (px (on_resize s)))
  /\ (parent_el s = None ->
      container_width (on_resize s) = Fin 0
      /\ px (on_resize s) = Fin 0)
  /\ image_size (on_resize s) = image_size s.
Proof.
  intros Hp Hw Hl Hnz.
  assert (E : strict_eq (width (image_size s)) 0 = false).
  { rewrite Hw. simpl. apply Qeq_bool_false. exact Hnz. }
  unfold on_resize, set_position. rewrite E. simpl.
  rewrite Hp, Hw, Hl. simpl.
  split; [| split; [| reflexivity]].
  - intros c Hc Hc0. rewrite Hc. simpl.
    destruct (Qeq_bool c 0) eqn:Z; simpl.
    + exists 0. apply Qeq_bool_iff in Z.
      split; [reflexivity |]. split; [lra |].
      rewrite clamp_zero. simpl. lra.
    + exists c. split; [reflexivity |]. split; [reflexivity |].
      apply clamp_range. exact Hc0.
  - intro Hn. rewrite Hn. simpl. split; [reflexivity | apply clamp_zero].
Qed.

Lemma set_position_offset_in_container_witness :
  (forall c : Q,
      parent_el scenario = Some (Fin c) -> 0 <= c ->
      exists cw : Q,
        container_width (on_resize scenario) = Fin cw
        /\ cw == c
        /\ within 0 cw (px (on_resize scenario)))
  /\ (parent_el scenario = None ->
      container_width (on_resize scenario) = Fin 0
      /\ px (on_resize scenario) = Fin 0)
  /\ image_size (on_resize scenario) = image_size scenario.
Proof.
  apply (set_position_offset_in_container scenario (1 # 2) 400 100);
    try reflexivity.
  intro H. discriminate H.
Defined.

End SliderGeometry.

(* ================================================================== *)
(** ** More about the slider: whole pointer sequences *)
(* ================================================================== *)

Section SliderSessions.
Import Slider SliderCases SliderReactive.

Lemma disabled_ignores_pointer_witness :
  run [Down {| x := 300; sourceEvent := 1 |};
       Move {| x := 340; sourceEvent := 2 |};
       Up {| x := 340; sourceEvent := 3 |}]
      (init (1 # 2) true
         {| top := 0; left := 100; width := 400; height := 200 |}
         (Some (Fin 400)) (Some (Fin 600)))
  = init (1 # 2) true
      {| top := 0; left := 100; width := 400; height := 200 |}
      (Some (Fin 400)) (Some (Fin 600)).
Proof.
  apply disabled_ignores_pointer. reflexivity.
Defined.

(** No handler touches the props or the measured geometry. *)
Lemma handle_frame (p : Pointer) (s : State) :
  disabled (handle p s) = disabled s
  /\ image_size (handle p s) = image_size s
  /\ container_width (handle p s) = container_width s
  /\ el (handle p s) = el s
  /\ parent_el (handle p s) = parent_el s.
Proof.
  destruct p as [e | e | e]; simpl.
  - unfold drag_start. destruct (disabled s) eqn:D; simpl; auto.
  - unfold drag_move. destruct (disabled s) eqn:D; simpl; auto.
    destruct (Double.abs_sub_gt (x e) (drag_start_x s) 3); simpl; auto.
  - unfold drag_end. destruct (disabled s) eqn:D; simpl; auto.
    destruct (was_dragged s); simpl; auto.
Qed.

(** With a content area of finite, non-zero width a finite coordinate gives
    a finite position. *)
Lemma update_position_finite (cx w l : Q) (s : State) :
  width (image_size s) = Fin w -> left (image_size s) = Fin l -> ~ w == 0 ->
  position (update_position cx s) = Fin (round5 ((cx + - l) / w)).
Proof.
  intros Hw Hl N. unfold update_position. simpl. rewrite Hw, Hl. simpl.
  rewrite (Qeq_bool_false w 0 N). apply round_Fin.
Qed.

(** One handler and the reactive statement after it keep a finite position
    finite and the pixel offset in the container. *)
Lemma settled_px (p : Pointer) (s : State) (cw w l q : Q) :
  container_width s = Fin cw -> 0 <= cw ->
  width (image_size s) = Fin w -> left (image_size s) = Fin l -> ~ w == 0 ->
  finite (pointer_x p) ->
  position s = Fin q ->
  within 0 cw (px s) ->
  within 0 cw (px (reactive s (handle p s)))
  /\ exists q' : Q, position (reactive s (handle p s)) = Fin q'.
Proof.
  intros Hcw H0 Hw Hl N Hf Hq Hpx.
  destruct (handle_frame p s) as (_ & G & C & _).
  assert (R : forall t : State,
             image_size t = image_size s -> container_width t = container_width s ->
             within 0 cw (px t) ->
             (exists r : Q, position t = Fin r) ->
             within 0 cw (px (reactive s t))
             /\ exists q' : Q, position (reactive s t) = Fin q').
  { intros t Gt Ct Pt [r Er]. unfold reactive.
    destruct (changed (position s) (position t)).
    - split; [| exists r; exact Er].
      unfold update_position_from_pc. simpl.
      rewrite Er, Gt, Ct, Hw, Hl, Hcw. simpl.
      apply clamp_range. exact H0.
    - split; [exact Pt | exists r; exact Er]. }
  assert (U : forall (cx : Q) (t : State),
             image_size t = image_size s -> container_width t = container_width s ->
             within 0 cw (px (update_position cx t))
             /\ exists r : Q, position (update_position cx t) = Fin r).
  { intros cx t Gt Ct. split.
    - simpl. rewrite Ct, Hcw. apply clamp_range. exact H0.
    - exists (round5 ((cx + - l) / w)).
      apply update_position_finite; [rewrite Gt; exact Hw | rewrite Gt; exact Hl | exact N]. }
  destruct p as [e | e | e]; simpl in Hf; simpl handle.
  - unfold drag_start. destruct (disabled s).
    + apply R; auto. exists q. exact Hq.
    + destruct (x e) as [cx | | |]; try contradiction.
      destruct (U cx (with_active true s) eq_refl eq_refl) as [U1 U2].
      apply R; auto.
  - unfold drag_move. destruct (disabled s).
    + apply R; auto. exists q. exact Hq.
    + destruct (x e) as [cx | | |] eqn:X; try contradiction.
      destruct (U cx s eq_refl eq_refl) as [U1 U2].
      destruct (Double.abs_sub_gt (Fin cx) (drag_start_x (update_position (Fin cx) s)) 3);
        apply R; auto.
  - unfold drag_end. destruct (disabled s).
    + apply R; auto. exists q. exact Hq.
    + destruct (negb (was_dragged (with_active false s)));
        apply R; auto; exists q; exact Hq.
Qed.

(** X2.  The handle never leaves the container.  With a content area of
    finite, non-zero width and a finite position, whatever pointer
    notifications with finite coordinates arrive, in whatever order, the
    pixel offset the component ends with (the handlers' and the one the
    reactive statement derives from the new position) stays in
    [0, container_width], and the handlers change neither the geometry nor
    [disabled]. *)
Theorem handle_stays_in_container (ps : list Pointer) :
  forall (s : State) (cw w l q : Q),
    container_width s = Fin cw -> 0 <= cw ->
    width (image_size s) = Fin w -> left (image_size s) = Fin l ->
    ~ w == 0 ->
    position s = Fin q ->
    Forall (fun p => finite (pointer_x p)) ps ->
    within 0 cw (px s) ->
    within 0 cw (px (run ps s))
    /\ container_width (run ps s) = Fin cw
    /\ image_size (run ps s) = image_size s
    /\ disabled (run ps s) = disabled s.
Proof.
  induction ps as [| p ps IH]; intros s cw w l q Hcw H0 Hw Hl N Hq Hf Hpx.
  - simpl. auto.
  - change (run (p :: ps) s) with (run ps (reactive s (handle p s))).
    inversion Hf as [| p' ps' Hp Hps]; subst.
    destruct (handle_frame p s) as (F1 & F2 & F3 & _).
    destruct (reactive_frame s (handle p s))
      as (_ & _ & R3 & R4 & _ & _ & _ & R8).
    destruct (settled_px p s cw w l q Hcw H0 Hw Hl N Hp Hq Hpx)
      as (S1 & q' & S2).
    destruct (IH (reactive s (handle p s)) cw w l q') as (I1 & I2 & I3 & I4).
    + rewrite R8, F3. exact Hcw.
    + exact H0.
    + rewrite R4, F2. exact Hw.
    + rewrite R4, F2. exact Hl.
    + exact N.
    + exact S2.
    + exact Hps.
    + exact S1.
    + rewrite I3, I4, R3, R4, F1, F2. auto.
Qed.

Lemma handle_stays_in_container_witness :
  within 0 600
    (px (run [Down {| x := 300; sourceEvent := 1 |};
              Move {| x := 900; sourceEvent := 2 |};
              Move {| x := - (50 # 1); sourceEvent := 3 |};
              Up {| x := - (50 # 1); sourceEvent := 4 |}] scenario)).
Proof.
  apply (handle_stays_in_container
           [Down {| x := 300; sourceEvent := 1 |};
            Move {| x := 900; sourceEvent := 2 |};
            Move {| x := - (50 # 1); sourceEvent := 3 |};
            Up {| x := - (50 # 1); sourceEvent := 4 |}] scenario
           600 400 100 (1 # 2)).
  - reflexivity.
  - discriminate.
  - reflexivity.
  - reflexivity.
  - intro H. discriminate H.
  - reflexivity.
  - repeat constructor.
  - vm_compute. split; discriminate.
Defined.

Lemma last_of_map (A B : Type) (f : A -> B) (l : list A) (d : A) :
  last (map f l) (f d) = f (last l d).
Proof.
  induction l as [| a l IH]; [reflexivity |].
  destruct l as [| b l']; [reflexivity |]. exact IH.
Qed.

(** X6.  What a whole drag session lets the parent see.  In an enabled
    component, a pointer-down, any moves and a pointer-up give, in order,
    the positions computed for the down-point and for each move (each from
    that event's coordinate alone), every one only if it differs from the
    position before it, and then one click carrying the pointer-up's source
    event if the test of [drag_move] held for none of the moves, nothing
    otherwise; so at most one click per session, and a move back to the
    start does not bring the click back.  Afterwards [active] is false and
    the position is the one of the last down or move. *)
Theorem session_emissions (s : State) (e0 e1 : DragEvent)
    (ms : list DragEvent) :
  disabled s = false ->
  emitted (run (Down e0 :: map Move ms ++ [Up e1]) s)
  = emitted s
    ++ notifications (position s)
         (map (fun m => position (update_position (x m) s)) (e0 :: ms))
    ++ (if existsb (beyond_threshold (x e0)) ms
        then []
        else [EmitClick (sourceEvent e1)])
  /\ active (run (Down e0 :: map Move ms ++ [Up e1]) s) = false
  /\ position (run (Down e0 :: map Move ms ++ [Up e1]) s)
     = position (update_position (x (last ms e0)) s).
Proof.
  intro D.
  destruct (down_step e0 s D) as (E0 & P0 & D0 & G0 & W0 & X0 & _).
  set (s1 := reactive s (drag_start e0 s)) in *.
  destruct (moves_run s ms s1 D0 G0) as (W & E & P & D1 & _).
  set (s2 := run (map Move ms) s1) in *.
  destruct (up_step e1 s2 D1) as (E2 & P2 & A2).
  assert (R : run (Down e0 :: map Move ms ++ [Up e1]) s
              = reactive s2 (drag_end e1 s2)).
  { change (Down e0 :: map Move ms ++ [Up e1])
      with ((Down e0 :: map Move ms) ++ [Up e1]).
    unfold run. rewrite fold_left_app. reflexivity. }
  rewrite R, E2, P2, A2, W, W0, X0, E, E0, P0, P.
  split; [| split; [reflexivity |]].
  - simpl. rewrite <- !app_assoc. reflexivity.
  - rewrite P0.
    apply (last_of_map _ _ (fun m => position (update_position (x m) s))).
Qed.

Lemma session_emissions_witness :
  emitted (run (Down {| x := 300; sourceEvent := 1 |}
                :: map Move [{| x := 310; sourceEvent := 2 |};
                             {| x := 300; sourceEvent := 3 |}]
                ++ [Up {| x := 300; sourceEvent := 4 |}]) scenario)
  = [EmitPosition (position (update_position 310 scenario));
     EmitPosition (position (update_position 300 scenario))]
  /\ clicks
       (emitted (run (Down {| x := 300; sourceEvent := 1 |}
                      :: map Move [{| x := 310; sourceEvent := 2 |};
                                   {| x := 300; sourceEvent := 3 |}]
                      ++ [Up {| x := 300; sourceEvent := 4 |}]) scenario))
     = [].
Proof.
  pose proof (proj1 (session_emissions scenario
                       {| x := 300; sourceEvent := 1 |}
                       {| x := 300; sourceEvent := 4 |}
                       [{| x := 310; sourceEvent := 2 |};
                        {| x := 300; sourceEvent := 3 |}] eq_refl)) as H.
  split; [rewrite H; vm_compute; reflexivity |].
  rewrite H. vm_compute. reflexivity.
Defined.

End SliderSessions.

(* ================================================================== *)
(** ** More about the preview *)
(* ================================================================== *)

Section PreviewMore.
Import Media Preview PreviewCases.

(** X11.  A missing element.  While either video element is not bound,
    [toggle_playback] and the synchronising part of the reactive block leave
    the state as it is; without the master the whole block does. *)
Theorem missing_element_is_ignored (s : State) :
  video1_el s = None \/ video2_el s = None ->
  toggle_playback s = s
  /\ sync_block s = s
  /\ (video1_el s = None -> reactive_block s = s).
Proof.
  intro H. unfold reactive_block, autoplay_block, toggle_playback, sync_block.
  destruct (video1_el s) as [v1 |] eqn:E1.
  - destruct H as [H | H]; [discriminate H |].
    rewrite H. repeat split. intro N. discriminate N.
  - repeat split. intros _. rewrite E1. reflexivity.
Qed.

Lemma missing_element_is_ignored_witness :
  toggle_playback
    {| position := 1 # 2; autoplay := true; video1_el := Some (clip 3 true true);
       video2_el := None; video_is_ready := true;
       initial_autoplay_done := true |}
  = {| position := 1 # 2; autoplay := true; video1_el := Some (clip 3 true true);
       video2_el := None; video_is_ready := true;
       initial_autoplay_done := true |}.
Proof.
  exact (proj1 (missing_element_is_ignored
                  {| position := 1 # 2; autoplay := true;
                     video1_el := Some (clip 3 true true);
                     video2_el := None; video_is_ready := true;
                     initial_autoplay_done := true |}
                  (or_intror eq_refl))).
Defined.

(** X12.  A toggle puts both elements in the same transport state, whatever
    the slave was doing.  With both elements bound and allowed to play, after
    [toggle_playback] both [paused] flags are the negation of the master's
    flag before; a second toggle brings the master's flag back and the slave
    with it. *)
Theorem toggle_playback_aligns (s : State) (v1 v2 : Video) :
  video1_el s = Some v1 ->
  video2_el s = Some v2 ->
  may_play v1 = true -> may_play v2 = true ->
  (exists v1' v2' : Video,
      video1_el (toggle_playback s) = Some v1'
      /\ video2_el (toggle_playback s) = Some v2'
      /\ paused v1' = negb (paused v1)
      /\ paused v2' = negb (paused v1))
  /\ (exists v1' v2' : Video,
         video1_el (toggle_playback (toggle_playback s)) = Some v1'
         /\ video2_el (toggle_playback (toggle_playback s)) = Some v2'
         /\ paused v1' = paused v1
         /\ paused v2' = paused v1
         /\ currentTime v1' = currentTime v1
         /\ currentTime v2' = currentTime v2).
Proof.
  intros H1 H2 A1 A2. unfold toggle_playback. rewrite H1, H2.
  destruct (paused v1) eqn:P1; simpl; unfold play; rewrite ?A1, ?A2; simpl.
  - split; eexists; eexists; repeat split; reflexivity.
  - rewrite A1, A2. simpl.
    split; eexists; eexists; repeat split; reflexivity.
Qed.

Lemma toggle_playback_aligns_witness :
  exists v1' v2' : Video,
    video1_el (toggle_playback (both false (clip 5 true true)
                                  (clip 4 false true))) = Some v1'
    /\ video2_el (toggle_playback (both false (clip 5 true true)
                                     (clip 4 false true))) = Some v2'
    /\ paused v1' = false
    /\ paused v2' = false.
Proof.
  apply (toggle_playback_aligns
           (both false (clip 5 true true) (clip 4 false true))
           (clip 5 true true) (clip 4 false true));
    reflexivity.
Defined.

(** The transport calls and the [paused] flag of the slave after the
    synchronising part do not depend on the time correction. *)
Lemma slave_after_transport (v1 v2 : Video) :
  calls (slave_after v1 v2)
  = calls v2 ++ (if Bool.eqb (paused v1) (paused v2) then []
                 else if paused v1 then [Pause] else [Play])
  /\ paused (slave_after v1 v2)
     = (if Bool.eqb (paused v1) (paused v2) then paused v2
        else if paused v1 then true
             else if may_play v2 then false else paused v2)
  /\ may_play (slave_after v1 v2) = may_play v2.
Proof.
  unfold slave_after.
  destruct (Double.abs_sub_gt (currentTime v1) (currentTime v2) (1 # 10));
    simpl; destruct (paused v1) eqn:P1, (paused v2) eqn:P2; simpl;
    rewrite ?P2, ?app_nil_r; try (repeat split; reflexivity);
    unfold play; simpl; destruct (may_play v2) eqn:M; simpl;
    rewrite ?P2, ?M; repeat split; reflexivity.
Qed.

(** X13.  Pause mirroring settles in one run.  With both elements bound
    (and, when the slave has to be started, the runtime letting it play),
    after one run of the synchronising part the slave has the master's
    [paused] flag, and a second run makes no transport call on either
    element and leaves the flags as they are. *)
Theorem sync_block_settles (s : State) (v1 v2 : Video) :
  video1_el s = Some v1 ->
  video2_el s = Some v2 ->
  (paused v1 = false -> paused v2 = true -> may_play v2 = true) ->
  exists v2' v2'' : Video,
    video2_el (sync_block s) = Some v2'
    /\ paused v2' = paused v1
    /\ video2_el (sync_block (sync_block s)) = Some v2''
    /\ calls v2'' = calls v2'
    /\ paused v2'' = paused v1
    /\ video1_el (sync_block (sync_block s)) = Some v1.
Proof.
  intros H1 H2 A.
  rewrite (sync_block_both s v1 v2 H1 H2).
  rewrite (sync_block_both (with_video2 (slave_after v1 v2) s) v1
             (slave_after v1 v2) H1 eq_refl).
  exists (slave_after v1 v2), (slave_after v1 (slave_after v1 v2)).
  destruct (slave_after_transport v1 v2) as (_ & P & _).
  assert (P' : paused (slave_after v1 v2) = paused v1).
  { rewrite P. destruct (paused v1) eqn:P1, (paused v2) eqn:P2; simpl;
      try reflexivity. rewrite (A eq_refl eq_refl). reflexivity. }
  destruct (slave_after_transport v1 (slave_after v1 v2)) as (C2 & Q & _).
  rewrite P', Bool.eqb_reflx in C2, Q. rewrite app_nil_r in C2.
  repeat split; try reflexivity; try assumption.
Qed.

Lemma sync_block_settles_witness :
  exists v2' v2'' : Video,
    video2_el (sync_block (both false (clip 10 false true)
                             (clip (98 # 10) true true))) = Some v2'
    /\ paused v2' = false
    /\ video2_el (sync_block (sync_block (both false (clip 10 false true)
                                            (clip (98 # 10) true true))))
       = Some v2''
    /\ calls v2'' = calls v2'
    /\ paused v2'' = false.
Proof.
  destruct (sync_block_settles
              (both false (clip 10 false true) (clip (98 # 10) true true))
              (clip 10 false true) (clip (98 # 10) true true)
              eq_refl eq_refl (fun _ _ => eq_refl))
    as (a & b & E1 & P1 & E2 & C & P2 & _).
  exists a, b. auto.
Defined.

(** X14.  A refused [play()] is tried again on every run.  While the master
    plays and the runtime does not let the paused slave play, each run of
    the synchronising part calls [play()] on the slave once more and the
    slave stays paused; the rejections are dropped. *)
Theorem refused_play_is_retried (n : nat) (s : State) (v1 v2 : Video) :
  video1_el s = Some v1 ->
  video2_el s = Some v2 ->
  paused v1 = false -> paused v2 = true -> may_play v2 = false ->
  exists v2' : Video,
    video2_el (Nat.iter n sync_block s) = Some v2'
    /\ video1_el (Nat.iter n sync_block s) = Some v1
    /\ calls v2' = calls v2 ++ repeat Play n
    /\ paused v2' = true.
Proof.
  intros H1 H2 P1 P2 A.
  assert (G : exists v2' : Video,
             video2_el (Nat.iter n sync_block s) = Some v2'
             /\ video1_el (Nat.iter n sync_block s) = Some v1
             /\ calls v2' = calls v2 ++ repeat Play n
             /\ paused v2' = true /\ may_play v2' = false).
  { induction n as [| n IH].
    - exists v2. simpl. rewrite app_nil_r. auto.
    - destruct IH as (w & E2 & E1 & C & Pw & Aw).
      change (Nat.iter (S n) sync_block s)
        with (sync_block (Nat.iter n sync_block s)).
      rewrite (sync_block_both _ v1 w E1 E2).
      exists (slave_after v1 w). simpl.
      split; [reflexivity |]. split; [exact E1 |].
      unfold slave_after.
      destruct (Double.abs_sub_gt (currentTime v1) (currentTime w) (1 # 10));
        simpl; rewrite P1, Pw; simpl; unfold play; simpl; rewrite Aw; simpl;
        rewrite C, <- app_assoc;
        change (repeat Play n ++ [Play]) with (repeat Play n ++ repeat Play 1);
        rewrite <- repeat_app, Nat.add_1_r; auto. }
  destruct G as (w & E2 & E1 & C & Pw & _).
  exists w. auto.
Qed.

Lemma refused_play_is_retried_witness :
  exists v2' : Video,
    video2_el (Nat.iter 3 sync_block (both false (clip 10 false true)
                                        (clip 10 true false))) = Some v2'
    /\ video1_el (Nat.iter 3 sync_block (both false (clip 10 false true)
                                           (clip 10 true false)))
       = Some (clip 10 false true)
    /\ calls v2' = [] ++ repeat Play 3
    /\ paused v2' = true.
Proof.
  apply (refused_play_is_retried 3
           (both false (clip 10 false true) (clip 10 true false))
           (clip 10 false true) (clip 10 true false));
    reflexivity.
Defined.

Lemma step_not_ready (ev : Event) (s : State) :
  ev <> Ready -> video_is_ready (step ev s) = video_is_ready s.
Proof.
  intro N. destruct ev as [| | w t p e r a]; simpl.
  - contradiction.
  - apply (reactive_block_latch s).
  - destruct (reactive_block_latch (changed w t p e r a s))
      as (_ & _ & _ & R4 & _).
    destruct (changed_frame w t p e r a s) as (_ & _ & _ & C4 & _).
    rewrite R4. exact C4.
Qed.

Lemma step_without_guard (ev : Event) (s : State) :
  autoplay s = false \/ (video_is_ready s = false /\ ev <> Ready) ->
  master_plays (step ev s) = master_plays s
  /\ initial_autoplay_done (step ev s) = initial_autoplay_done s.
Proof.
  intro H.
  assert (K : forall t : State,
             autoplay t = false \/ video_is_ready t = false ->
             master_plays (reactive_block t) = master_plays t
             /\ initial_autoplay_done (reactive_block t)
                = initial_autoplay_done t).
  { intros t Ht. destruct (reactive_block_latch t) as (R1 & R2 & _).
    assert (F : fires t = false).
    { unfold fires. destruct (video1_el t); [| reflexivity].
      destruct Ht as [Ht | Ht]; rewrite Ht;
        rewrite ?andb_false_r; reflexivity. }
    rewrite R1, R2, F, orb_false_r, Nat.add_0_r. auto. }
  destruct ev as [| | w t p e r a]; simpl.
  - destruct H as [H | [_ H]]; [| contradiction].
    apply (K (handle_video_ready s)). left. exact H.
  - apply K. destruct H as [H | [H _]]; auto.
  - destruct (changed_frame w t p e r a s) as (C1 & C2 & C3 & C4 & _).
    rewrite <- C1, <- C2. apply K. rewrite C3, C4.
    destruct H as [H | [H _]]; auto.
Qed.

(** X15.  When autoplay does not happen.  If [autoplay] is off, or as long as
    the master has not reported [loadeddata], no sequence of render passes
    and transport changes makes the reactive block call [play()] on the
    master or set the latch. *)
Theorem no_autoplay_without_flag_or_ready (evs : list Event) :
  forall s : State,
    autoplay s = false \/ (video_is_ready s = false /\ ~ In Ready evs) ->
    master_plays (run evs s) = master_plays s
    /\ initial_autoplay_done (run evs s) = initial_autoplay_done s.
Proof.
  induction evs as [| ev evs IH]; intros s H; [simpl; auto |].
  change (run (ev :: evs) s) with (run evs (step ev s)).
  assert (H' : autoplay s = false \/ (video_is_ready s = false /\ ev <> Ready)).
  { destruct H as [H | [H N]]; [left; exact H |].
    right. split; [exact H |]. intro E. apply N. left. exact E. }
  destruct (step_without_guard ev s H') as [S1 S2].
  destruct (step_latch ev s) as (_ & _ & S3 & _).
  destruct (IH (step ev s)) as [I1 I2].
  - destruct H as [H | [H N]].
    + left. rewrite S3. exact H.
    + right. split.
      * rewrite step_not_ready; [exact H |].
        intro E. apply N. left. exact E.
      * intro I. apply N. right. exact I.
  - rewrite I1, I2, S1, S2. auto.
Qed.

Lemma no_autoplay_without_flag_or_ready_witness :
  master_plays (run [Tick; Changed Master 3 false false 4 true; Tick]
                  (both true (clip 0 true true) (clip 0 true true)))
  = master_plays (both true (clip 0 true true) (clip 0 true true))
  /\ master_plays (run [Ready; Tick; Ready]
                     (both false (clip 0 true true) (clip 0 true true)))
     = master_plays (both false (clip 0 true true) (clip 0 true true)).
Proof.
  split.
  - apply (no_autoplay_without_flag_or_ready
             [Tick; Changed Master 3 false false 4 true; Tick]
             (both true (clip 0 true true) (clip 0 true true))).
    right. split; [reflexivity |].
    intros [H | [H | [H | []]]]; discriminate H.
  - apply (no_autoplay_without_flag_or_ready
             [Ready; Tick; Ready]
             (both false (clip 0 true true) (clip 0 true true))).
    left. reflexivity.
Defined.

Lemma step_master (ev : Event) (s : State) (v1 : Video) :
  video1_el s = Some v1 ->
  exists v1' : Video,
    video1_el (step ev s) = Some v1'
    /\ seeks v1' = seeks v1
    /\ count Pause v1' = count Pause v1.
Proof.
  assert (K : forall (t : State) (a : Video),
             video1_el t = Some a ->
             exists a' : Video,
               video1_el (reactive_block t) = Some a'
               /\ seeks a' = seeks a
               /\ count Pause a' = count Pause a).
  { intros t a Ha. unfold reactive_block.
    destruct (sync_block_frame (autoplay_block t)) as (F1 & _).
    rewrite F1. unfold autoplay_block. rewrite Ha.
    destruct (video_is_ready t && autoplay t && negb (initial_autoplay_done t)).
    - simpl. eexists. split; [reflexivity |].
      unfold catch_ignore, play.
      destruct (may_play a); simpl; rewrite count_received, Nat.add_0_r; auto.
    - exists a. auto. }
  intro H1. destruct ev as [| | w t p e r a]; simpl.
  - apply K. exact H1.
  - apply K. exact H1.
  - destruct w.
    + destruct (K (changed Master t p e r a s) (report t p e r a v1))
        as (a' & E & S & C).
      { unfold changed. rewrite H1. reflexivity. }
      exists a'. auto.
    + apply K. unfold changed.
      destruct (video2_el s); [simpl |]; exact H1.
Qed.

(** X16.  The master is never corrected.  Whatever ready notifications, render
    passes and transport changes arrive, the reactive block assigns nothing
    to the master's [currentTime] and never calls [pause()] on it. *)
Theorem master_is_never_corrected (evs : list Event) :
  forall (s : State) (v1 : Video),
    video1_el s = Some v1 ->
    exists v1' : Video,
      video1_el (run evs s) = Some v1'
      /\ seeks v1' = seeks v1
      /\ count Pause v1' = count Pause v1.
Proof.
  induction evs as [| ev evs IH]; intros s v1 H1.
  - exists v1. auto.
  - change (run (ev :: evs) s) with (run evs (step ev s)).
    destruct (step_master ev s v1 H1) as (a & E & S & C).
    destruct (IH (step ev s) a E) as (b & E' & S' & C').
    exists b. rewrite S', C'. auto.
Qed.

Lemma master_is_never_corrected_witness :
  exists v1' : Video,
    video1_el (run [Ready; Changed Slave 7 true false 4 true; Tick]
                 (both true (clip 0 true true) (clip 0 true true)))
    = Some v1'
    /\ seeks v1' = []
    /\ count Pause v1' = 0%nat.
Proof.
  apply (master_is_never_corrected
           [Ready; Changed Slave 7 true false 4 true; Tick]
           (both true (clip 0 true true) (clip 0 true true))
           (clip 0 true true)).
  reflexivity.
Defined.

(** X17.  [play_pause] of the single player.  Outside fullscreen it makes
    exactly one call: [pause()] if the video is actually playing, [play()]
    otherwise, in particular whenever the video is paused, has ended, is at
    time 0 or has no data beyond the current frame; its promise is rejected
    exactly when that [play()] is refused.  When the video is the fullscreen
    element it does nothing. *)
Theorem play_pause_calls (video : Video) :
  calls (fst (Player.play_pause false video))
  = calls video ++ [if Player.isPlaying video then Pause else Play]
  /\ Player.play_pause true video = (video, Resolved)
  /\ (snd (Player.play_pause false video) = Rejected
      <-> Player.isPlaying video = false /\ may_play video = false)
  /\ (paused video = true -> Player.isPlaying video = false)
  /\ (ended video = true -> Player.isPlaying video = false)
  /\ (currentTime video <= 0 -> Player.isPlaying video = false)
  /\ ((readyState video <= HAVE_CURRENT_DATA)%nat ->
      Player.isPlaying video = false).
Proof.
  unfold Player.play_pause. simpl.
  split; [| split; [reflexivity |]; split].
  - destruct (Player.isPlaying video); simpl; [reflexivity |].
    unfold play. destruct (may_play video); reflexivity.
  - destruct (Player.isPlaying video); simpl.
    + split; [discriminate | intros [H _]; discriminate H].
    + unfold play. destruct (may_play video); simpl; split;
        try discriminate; auto.
      intros [_ H]. discriminate H.
  - unfold Player.isPlaying. repeat split.
    + intro H. rewrite H. destruct (gt _ _); reflexivity.
    + intro H. rewrite H. destruct (gt _ _), (paused video); reflexivity.
    + intro H. apply gt_Fin_false in H. rewrite H. reflexivity.
    + intro H. apply Nat.ltb_ge in H. rewrite H.
      destruct (gt _ _), (paused video), (ended video); reflexivity.
Qed.

(** X18.  The two toggles agree except on a stalled master.  When the master
    is paused, or is actually playing in the sense of [play_pause], the
    master after [toggle_playback] is the video [play_pause] would leave. *)
Theorem toggle_playback_matches_play_pause (s : State) (v1 v2 : Video) :
  video1_el s = Some v1 ->
  video2_el s = Some v2 ->
  paused v1 = true \/ Player.isPlaying v1 = true ->
  video1_el (toggle_playback s) = Some (fst (Player.play_pause false v1)).
Proof.
  intros H1 H2 H. unfold toggle_playback, Player.play_pause.
  rewrite H1, H2. simpl.
  destruct H as [H | H].
  - assert (N : Player.isPlaying v1 = false).
    { unfold Player.isPlaying. rewrite H. destruct (gt _ _); reflexivity. }
    rewrite H, N. reflexivity.
  - assert (N : paused v1 = false).
    { unfold Player.isPlaying in H.
      destruct (paused v1); [| reflexivity].
      destruct (gt _ _); discriminate H. }
    rewrite H, N. reflexivity.
Qed.

Lemma toggle_playback_matches_play_pause_witness :
  video1_el (toggle_playback (both false (clip 5 false true)
                                (clip 5 false true)))
  = Some (fst (Player.play_pause false (clip 5 false true))).
Proof.
  apply (toggle_playback_matches_play_pause
           (both false (clip 5 false true) (clip 5 false true))
           (clip 5 false true) (clip 5 false true));
    try reflexivity.
  right. reflexivity.
Defined.

End PreviewMore.

(* ================================================================== *)
(** ** The player's timeline *)
(* ================================================================== *)

Section TimelineFacts.
Import String Timeline.

Lemma primary_button_bit (b : Z) :
  (Z.land b 1 =? 0)%Z = negb (Z.odd b).
Proof.
  change 1%Z with (Z.ones 1). rewrite Z.land_ones by lia.
  rewrite Z.pow_1_r, Zmod_odd. destruct (Z.odd b); reflexivity.
Qed.

(** X19.  A click on the progress bar seeks inside the video.  With a finite
    duration [d >= 0], a bar of positive width and a click between its left
    and right edges, [handle_click] sets [time] to a value in [0, d]: 0 at
    the left edge, [d] at the right edge, and never smaller for a click
    further right.  [duration] is not changed. *)
Theorem handle_click_seeks_inside (e : BarEvent) (s : State) (d l r c : Q) :
  duration s = Fin d -> 0 <= d ->
  rect_left e = Fin l -> rect_right e = Fin r -> l < r ->
  clientX e = Fin c -> l <= c -> c <= r ->
  exists t : Q,
    time (handle_click e s) = Fin t
    /\ 0 <= t <= d
    /\ t == d * (c - l) / (r - l)
    /\ (c == l -> t == 0)
    /\ (c == r -> t == d)
    /\ duration (handle_click e s) = duration s
    /\ (forall (e' : BarEvent) (c' : Q),
          rect_left e' = Fin l -> rect_right e' = Fin r ->
          clientX e' = Fin c' -> c <= c' ->
          exists t' : Q, time (handle_click e' s) = Fin t' /\ t <= t').
Proof.
  intros Hd Hd0 Hl Hr Hlr Hc Hc1 Hc2.
  assert (N : Qeq_bool (r + - l) 0 = false) by (apply Qeq_bool_false; lra).
  assert (I : 0 < / (r + - l)) by (apply Qinv_lt_0_compat; lra).
  exists (d * (c + - l) / (r + - l)).
  unfold handle_click. simpl. rewrite Hd, Hl, Hr, Hc. simpl. rewrite N.
  split; [reflexivity |].
  assert (U : 0 <= d * (c + - l)) by (apply Qmult_le_0_compat; lra).
  assert (V0 : 0 <= d * (r - c)) by (apply Qmult_le_0_compat; lra).
  assert (V : d * (c + - l) <= d * (r + - l)) by lra.
  split.
  { split.
    - apply Qle_shift_div_l; lra.
    - apply Qle_shift_div_r; lra. }
  split; [reflexivity |].
  split; [intro E; rewrite E; field; lra |].
  split; [intro E; rewrite E; field; lra |].
  split; [reflexivity |].
  intros e' c' Hl' Hr' Hc' Hcc.
  exists (d * (c' + - l) / (r + - l)).
  rewrite Hl', Hr', Hc'. simpl. rewrite N.
  split; [reflexivity |].
  apply Qmult_le_compat_r; [| lra].
  assert (W0 : 0 <= d * (c' - c)) by (apply Qmult_le_0_compat; lra).
  lra.
Qed.

Lemma handle_click_seeks_inside_witness :
  exists t : Q,
    time (handle_click
            {| type := "click"; buttons := 0; clientX := 150;
               touch_clientX := NaN; rect_left := 100; rect_right := 300 |}
            {| time := 0; duration := 60 |}) = Fin t
    /\ 0 <= t <= 60
    /\ t == 60 * (150 - 100) / (300 - 100).
Proof.
  destruct (handle_click_seeks_inside
              {| type := "click"; buttons := 0; clientX := 150;
                 touch_clientX := NaN; rect_left := 100; rect_right := 300 |}
              {| time := 0; duration := 60 |} 60 100 300 150)
    as (t & E & B & V & _); try reflexivity; try lra.
  exists t. auto.
Defined.

(** X20.  What [handleMove] lets through.  Without a duration (0 or [NaN]) it
    ignores every event.  Otherwise a ["click"] is handled as [handle_click]
    does; a mouse move seeks like a click when the primary button is held
    (bit 0 of [buttons]) and is ignored when it is not; a ["touchmove"]
    seeks from the first touch point whatever [buttons] is. *)
Theorem handleMove_guards (e : BarEvent) (s : State) :
  (truthy (duration s) = false -> handleMove e s = s)
  /\ (truthy (duration s) = true ->
      (type e = "click"%string -> handleMove e s = handle_click e s)
      /\ (type e = "mousemove"%string -> Z.odd (buttons e) = false ->
          handleMove e s = s)
      /\ (type e = "mousemove"%string -> Z.odd (buttons e) = true ->
          handleMove e s = handle_click e s)
      /\ (type e = "touchmove"%string ->
          handleMove e s
          = with_time (div (mul (duration s)
                                (sub (touch_clientX e) (rect_left e)))
                           (sub (rect_right e) (rect_left e))) s)).
Proof.
  unfold handleMove. split.
  - intro H. rewrite H. reflexivity.
  - intro H. rewrite H. simpl negb. cbv iota.
    rewrite primary_button_bit.
    split; [| split; [| split]].
    + intro T. rewrite T. reflexivity.
    + intros T B. rewrite T, B. reflexivity.
    + intros T B. rewrite T, B. reflexivity.
    + intro T. rewrite T. reflexivity.
Qed.

(** X21.  [time] and [duration] are never [NaN] after the reactive defaults.
    [NaN] becomes 0, every other value is kept, applying the defaults twice
    is applying them once; and the [value] of the progress bar is in [0, 1]
    when [0 <= time <= duration] with a positive duration, and 0 when both
    are 0. *)
Theorem reactive_defaults_drop_NaN (s : State) :
  time (reactive_defaults s) <> NaN
  /\ duration (reactive_defaults s) <> NaN
  /\ (time s <> NaN -> same (time (reactive_defaults s)) (time s))
  /\ (duration s <> NaN -> same (duration (reactive_defaults s)) (duration s))
  /\ (time s = NaN -> time (reactive_defaults s) = Fin 0)
  /\ reactive_defaults (reactive_defaults s) = reactive_defaults s
  /\ (forall t d : Q,
        time s = Fin t -> duration s = Fin d ->
        (0 <= t -> t <= d -> 0 < d -> within 0 1 (progress_value s))
        /\ (t == 0 -> d == 0 -> progress_value s = Fin 0)).
Proof.
  assert (A : forall n : number, or_else (Some n) 0 <> NaN).
  { intros [q | | |]; simpl; try discriminate.
    destruct (negb (Qeq_bool q 0)); discriminate. }
  assert (B : forall n : number, n <> NaN -> same (or_else (Some n) 0) n).
  { intros [q | | |] N; simpl; try exact I; try contradiction.
    destruct (Qeq_bool q 0) eqn:E; simpl; [| reflexivity].
    apply Qeq_bool_iff in E. symmetry. exact E. }
  assert (C : forall n : number,
             or_else (Some (or_else (Some n) 0)) 0 = or_else (Some n) 0).
  { intros [q | | |]; simpl; try reflexivity.
    destruct (Qeq_bool q 0) eqn:E; simpl; [reflexivity |].
    rewrite E. reflexivity. }
  split; [apply A |]. split; [apply A |].
  split; [apply B |]. split; [apply B |].
  split; [intro H; simpl; rewrite H; reflexivity |].
  split; [unfold reactive_defaults; cbn [time duration]; rewrite !C; reflexivity |].
  intros t d Ht Hd. unfold progress_value. rewrite Ht, Hd. split.
  - intros H0 H1 H2. simpl. rewrite (Qeq_bool_false d 0) by lra.
    assert (R : 0 <= t / d <= 1).
    { split.
      - apply Qle_shift_div_l; lra.
      - apply Qle_shift_div_r; lra. }
    simpl. destruct (Qeq_bool (t / d) 0) eqn:E; simpl; lra.
  - intros H0 H1. simpl.
    assert (E : Qeq_bool d 0 = true) by (apply Qeq_bool_iff; exact H1).
    rewrite E.
    assert (F : (t ?= 0) = Eq) by (apply Qeq_alt; exact H0).
    rewrite F. reflexivity.
Qed.

End TimelineFacts.

(* ================================================================== *)
(** ** More about the root component *)
(* ================================================================== *)

Section IndexMore.
Import Index.

Lemma normalised_slider_position_value (q : Q) :
  exists r : Q,
    normalised_slider_position (Fin q) = Fin r
    /\ r == Qmax 0 (Qmin 100 q) / 100.
Proof.
  pose proof (normalised_slider_position_Fin q) as S.
  destruct (normalised_slider_position (Fin q)) as [r | | |]; simpl in S;
    try contradiction.
  exists r. split; [reflexivity | exact S].
Qed.

(** X22.  The prop is rescaled, saturated and kept in order.  For finite
    [q1 <= q2] the derived positions are ordered the same way; inside
    [0, 100] the position is [q / 100], below it is 0 and above it is 1. *)
Theorem normalised_slider_position_rescales (q1 q2 : Q) :
  q1 <= q2 ->
  exists r1 r2 : Q,
    normalised_slider_position (Fin q1) = Fin r1
    /\ normalised_slider_position (Fin q2) = Fin r2
    /\ r1 <= r2
    /\ (0 <= q1 -> q1 <= 100 -> r1 == q1 / 100)
    /\ (q1 <= 0 -> r1 == 0)
    /\ (100 <= q1 -> r1 == 1).
Proof.
  intro H.
  destruct (normalised_slider_position_value q1) as (r1 & E1 & V1).
  destruct (normalised_slider_position_value q2) as (r2 & E2 & V2).
  exists r1, r2. split; [exact E1 |]. split; [exact E2 |].
  split.
  { rewrite V1, V2. apply Qmult_le_compat_r; [| discriminate].
    apply Q.max_le_compat_l. apply Q.min_le_compat_l. exact H. }
  split.
  { intros A B. rewrite V1, (Q.min_r 100 q1 B), (Q.max_r 0 q1 A).
    reflexivity. }
  split.
  { intro A. rewrite V1, (Q.min_r 100 q1) by lra.
    rewrite (Q.max_l 0 q1 A). reflexivity. }
  intro A. rewrite V1, (Q.min_l 100 q1 A). rewrite (Q.max_r 0 100) by lra.
  reflexivity.
Qed.

Lemma normalised_slider_position_rescales_witness :
  exists r1 r2 : Q,
    normalised_slider_position (Fin 25) = Fin r1
    /\ normalised_slider_position (Fin 130) = Fin r2
    /\ r1 <= r2
    /\ (0 <= 25 -> 25 <= 100 -> r1 == 25 / 100).
Proof.
  destruct (normalised_slider_position_rescales 25 130)
    as (r1 & r2 & E1 & E2 & L & V & _); [lra |].
  exists r1, r2. auto.
Defined.

(** X23.  Where the handle starts in the preview.  The slider of the preview
    gets no [image_size]; mounted with content and container measured
    [W > 0] pixels wide and the prop at [q] in [0, 100], [set_position]
    takes the measured width as the content width and puts the handle at
    [W * q / 100] pixels. *)
Theorem handle_starts_at_percentage (q W : Q) (dis : bool) :
  0 <= q -> q <= 100 -> 0 < W ->
  let s := Slider.on_resize
             (Slider.init (normalised_slider_position (Fin q)) dis
                {| Slider.top := 0; Slider.left := 0;
                   Slider.width := 0; Slider.height := 0 |}
                (Some (Fin W)) (Some (Fin W))) in
  exists xp : Q,
    Slider.px s = Fin xp
    /\ xp == W * q / 100
    /\ Slider.width (Slider.image_size s) = Fin W
    /\ Slider.container_width s = Fin W
    /\ Slider.position s = normalised_slider_position (Fin q).
Proof.
  intros H0 H1 HW.
  destruct (normalised_slider_position_value q) as (r & E & V).
  rewrite (Q.min_r 100 q H1), (Q.max_r 0 q H0) in V.
  assert (T : Qeq_bool W 0 = false) by (apply Qeq_bool_false; lra).
  unfold Slider.on_resize, Slider.set_position, Slider.init. simpl.
  rewrite E, T. simpl.
  assert (R0 : 0 <= W * r + 0).
  { assert (0 <= W * r) by (apply Qmult_le_0_compat; [lra |];
      rewrite V; apply Qle_shift_div_l; lra). lra. }
  assert (R1 : W * r + 0 <= W).
  { assert (0 <= W * (1 - r)).
    { apply Qmult_le_0_compat; [lra |].
      assert (r <= 1) by (rewrite V; apply Qle_shift_div_r; lra). lra. }
    lra. }
  destruct (clamp_between (W * r + 0) 0 W R0 R1) as (xp & Ex & Vx).
  exists xp. split; [exact Ex |].
  split; [rewrite Vx, V; field |].
  repeat split; reflexivity.
Qed.

Lemma handle_starts_at_percentage_witness :
  exists xp : Q,
    Slider.px (Slider.on_resize
                 (Slider.init (normalised_slider_position (Fin 25)) false
                    {| Slider.top := 0; Slider.left := 0;
                       Slider.width := 0; Slider.height := 0 |}
                    (Some (Fin 600)) (Some (Fin 600)))) = Fin xp
    /\ xp == 600 * 25 / 100.
Proof.
  destruct (handle_starts_at_percentage 25 600 false)
    as (xp & E & V & _); try lra.
  exists xp. auto.
Defined.

End IndexMore.

(* ================================================================== *)
(** ** The change notification *)
(* ================================================================== *)

Section ChangeFacts.
Import String Change.

Variable Value : Type.
Variable stringify : Value -> string.

Lemma assign_dispatched (v : Value) (s : State Value) :
  dispatched Value (assign Value stringify v s)
  = (dispatched Value s
     ++ (if String.eqb (stringify v) (stringify (old_value Value s))
         then [] else ["change"%string]))%list
  /\ stringify (old_value Value (assign Value stringify v s)) = stringify v.
Proof.
  unfold assign, change_block. simpl.
  destruct (String.eqb (stringify v) (stringify (old_value Value s))) eqn:E;
    simpl.
  - rewrite app_nil_r. split; [reflexivity |].
    apply String.eqb_eq in E. symmetry. exact E.
  - auto.
Qed.

(** X24.  One ["change"] per change of the serialised value.  Running the
    block again without a new value dispatches nothing; assigning a value
    whose [JSON.stringify] equals that of the last recorded one dispatches
    nothing; and along any sequence of assignments the number of ["change"]
    events dispatched is the number of times the serialised value differs
    from the one before it. *)
Theorem change_dispatched_once_per_change :
  (forall s : State Value,
      change_block Value stringify (change_block Value stringify s)
      = change_block Value stringify s)
  /\ (forall (v : Value) (s : State Value),
        stringify v = stringify (old_value Value s) ->
        dispatched Value (assign Value stringify v s) = dispatched Value s)
  /\ (forall (vs : list Value) (s : State Value),
        dispatched Value (assign_all Value stringify vs s)
        = (dispatched Value s
           ++ repeat "change"%string
                (changes Value stringify (stringify (old_value Value s)) vs))%list).
Proof.
  split; [| split].
  - intro s. unfold change_block.
    destruct (String.eqb (stringify (value Value s))
                (stringify (old_value Value s))) eqn:E; simpl.
    + rewrite E. reflexivity.
    + rewrite String.eqb_refl. reflexivity.
  - intros v s H. rewrite (proj1 (assign_dispatched v s)).
    rewrite H, String.eqb_refl. apply app_nil_r.
  - induction vs as [| v vs IH]; intro s.
    + simpl. symmetry. apply app_nil_r.
    + change (assign_all Value stringify (v :: vs) s)
        with (assign_all Value stringify vs (assign Value stringify v s)).
      destruct (assign_dispatched v s) as [D O].
      rewrite IH, D, O. simpl.
      destruct (String.eqb (stringify v) (stringify (old_value Value s)))
        eqn:E; simpl.
      * apply String.eqb_eq in E. rewrite app_nil_r, E. reflexivity.
      * rewrite <- app_assoc. reflexivity.
Qed.

End ChangeFacts.

(* ================================================================== *)
(** ** The statements above at concrete inputs *)
(* ================================================================== *)

Section ConcreteInputs.
Import String.

Lemma play_pause_calls_witness :
  Player.isPlaying PreviewCases.stalled = false
  /\ Media.calls (fst (Player.play_pause false PreviewCases.stalled))
     = [Media.Play].
Proof.
  pose proof (play_pause_calls PreviewCases.stalled)
    as (C & _ & _ & _ & _ & _ & R).
  assert (N : Player.isPlaying PreviewCases.stalled = false)
    by (apply R; apply le_n).
  split; [exact N |]. rewrite C, N. reflexivity.
Defined.

Lemma handleMove_guards_witness :
  Timeline.handleMove
    {| Timeline.type := "mousemove"; Timeline.buttons := 2;
       Timeline.clientX := 150; Timeline.touch_clientX := NaN;
       Timeline.rect_left := 100; Timeline.rect_right := 300 |}
    {| Timeline.time := 0; Timeline.duration := 60 |}
  = {| Timeline.time := 0; Timeline.duration := 60 |}
  /\ Timeline.handleMove
       {| Timeline.type := "mousemove"; Timeline.buttons := 1;
          Timeline.clientX := 150; Timeline.touch_clientX := NaN;
          Timeline.rect_left := 100; Timeline.rect_right := 300 |}
       {| Timeline.time := 0; Timeline.duration := 60 |}
     = Timeline.handle_click
         {| Timeline.type := "mousemove"; Timeline.buttons := 1;
            Timeline.clientX := 150; Timeline.touch_clientX := NaN;
            Timeline.rect_left := 100; Timeline.rect_right := 300 |}
         {| Timeline.time := 0; Timeline.duration := 60 |}
  /\ Timeline.handleMove
       {| Timeline.type := "mousemove"; Timeline.buttons := 1;
          Timeline.clientX := 150; Timeline.touch_clientX := NaN;
          Timeline.rect_left := 100; Timeline.rect_right := 300 |}
       {| Timeline.time := 7; Timeline.duration := NaN |}
     = {| Timeline.time := 7; Timeline.duration := NaN |}.
Proof.
  split; [| split].
  - apply (proj2 (handleMove_guards
                    {| Timeline.type := "mousemove"; Timeline.buttons := 2;
                       Timeline.clientX := 150; Timeline.touch_clientX := NaN;
                       Timeline.rect_left := 100; Timeline.rect_right := 300 |}
                    {| Timeline.time := 0; Timeline.duration := 60 |})
                 eq_refl); reflexivity.
  - apply (proj2 (handleMove_guards
                    {| Timeline.type := "mousemove"; Timeline.buttons := 1;
                       Timeline.clientX := 150; Timeline.touch_clientX := NaN;
                       Timeline.rect_left := 100; Timeline.rect_right := 300 |}
                    {| Timeline.time := 0; Timeline.duration := 60 |})
                 eq_refl); reflexivity.
  - apply (proj1 (handleMove_guards
                    {| Timeline.type := "mousemove"; Timeline.buttons := 1;
                       Timeline.clientX := 150; Timeline.touch_clientX := NaN;
                       Timeline.rect_left := 100; Timeline.rect_right := 300 |}
                    {| Timeline.time := 7; Timeline.duration := NaN |})).
    reflexivity.
Defined.

Lemma reactive_defaults_drop_NaN_witness :
  Timeline.time
    (Timeline.reactive_defaults
       {| Timeline.time := NaN; Timeline.duration := 60 |}) = Fin 0
  /\ within 0 1
       (Timeline.progress_value
          {| Timeline.time := 15; Timeline.duration := 60 |})
  /\ Timeline.progress_value {| Timeline.time := 0; Timeline.duration := 0 |}
     = Fin 0.
Proof.
  split; [| split].
  - apply (reactive_defaults_drop_NaN
             {| Timeline.time := NaN; Timeline.duration := 60 |}).
    reflexivity.
  - pose proof (reactive_defaults_drop_NaN
                  {| Timeline.time := 15; Timeline.duration := 60 |})
      as (_ & _ & _ & _ & _ & _ & H).
    apply (H 15 60 eq_refl eq_refl); lra.
  - pose proof (reactive_defaults_drop_NaN
                  {| Timeline.time := 0; Timeline.duration := 0 |})
      as (_ & _ & _ & _ & _ & _ & H).
    apply (H 0 0 eq_refl eq_refl); reflexivity.
Defined.

Lemma change_dispatched_once_per_change_witness :
  Change.dispatched nat
    (Change.assign_all nat
       (fun n => if Nat.even n then "even"%string else "odd"%string)
       [2; 4; 3; 5; 6]%nat
       {| Change.value := 0%nat; Change.old_value := 0%nat;
          Change.dispatched := [] |})
  = ["change"%string; "change"%string].
Proof.
  rewrite (proj2 (proj2 (change_dispatched_once_per_change nat
                           (fun n => if Nat.even n then "even"%string else "odd"%string)))).
  reflexivity.
Defined.

End ConcreteInputs.
